(** * UI5 language assistant: semantic-model utilities and the language server

    A shallow embedding of two TypeScript sources of the repository:

    - the semantic-model utilities ([newMap], [getParentFqn],
      [findValueInMaps], [forEachSymbol]);
    - the language server's request and notification handlers
      ([server.ts]).

    JavaScript strings are modelled by [string]; numbers that hold
    lengths and positions by [Z]; objects used as maps by the ordered
    list of their own properties together with their prototype; lodash's
    [has] by its reading of a key as a property path.  An [async]
    function is a tree of steps; the collaborators of the server are not
    interpreted, an environment answers their calls; a handler that
    starts functions without awaiting them runs under a schedule that
    tells which pending call settles next. *)

From Stdlib Require Import String Ascii List ZArith NArith Lia Bool Permutation.
Import ListNotations.

Open Scope string_scope.
Open Scope list_scope.

(* ===================================================================== *)
(** ** JavaScript strings *)
(* ===================================================================== *)

Module JsString.

(** [s.length] *)
Definition js_length (s : string) : Z := Z.of_nat (String.length s).

(** The clamping of a position that [String.prototype.substring]
    applies to each of its two arguments. *)
Definition clamp (len pos : Z) : Z := Z.min (Z.max pos 0) len.

(** [s.substring(start, end)]: both positions are clamped to
    [0 .. s.length] and swapped when [start > end]. *)
Definition js_substring (s : string) (start end_ : Z) : string :=
  let len := js_length s in
  let finalStart := clamp len start in
  let finalEnd := clamp len end_ in
  let from := Z.min finalStart finalEnd in
  let to := Z.max finalStart finalEnd in
  String.substring (Z.to_nat from) (Z.to_nat (to - from)) s.

(** [s.endsWith(searchString)] with the default end position
    [s.length]. *)
Definition endsWith (s searchString : string) : bool :=
  let len := js_length s in
  let searchLength := js_length searchString in
  let start := (len - searchLength)%Z in
  if (start <? 0)%Z then false
  else String.eqb (js_substring s start len) searchString.

(** lodash's [isEmpty] on a string: true exactly when it has no
    code unit. *)
Definition isEmpty (s : string) : bool := (js_length s =? 0)%Z.

End JsString.

(* ===================================================================== *)
(** ** JavaScript objects used as maps *)
(* ===================================================================== *)

Module JsObject.

(** What a property read can produce: a stored value, [undefined], or
    one of the members every ordinary object inherits from
    [Object.prototype]. *)
Inductive jsval (T : Type) : Type :=
| VUndefined
| VData (t : T)
| VBuiltin (name : string).
Arguments VUndefined {T}.
Arguments VData {T} t.
Arguments VBuiltin {T} name.

(** The two prototypes an object of the program can have:
    [Object.create(null)] gives the first, an object literal the
    second. *)
Inductive Proto : Type := NullProto | ObjectPrototype.

(** An object: its own (enumerable, string-keyed) properties in
    creation order, and its prototype. *)
Record obj (T : Type) : Type := mkObj {
  own : list (string * T);
  proto : Proto
}.
Arguments mkObj {T} own proto.
Arguments own {T} o.
Arguments proto {T} o.

(** The property names of [Object.prototype]; none of them is
    enumerable. *)
Definition object_prototype_keys : list string :=
  [ "constructor"; "toString"; "toLocaleString"; "valueOf";
    "hasOwnProperty"; "isPrototypeOf"; "propertyIsEnumerable";
    "__proto__"; "__defineGetter__"; "__defineSetter__";
    "__lookupGetter__"; "__lookupSetter__" ].

Definition mem_string (k : string) (l : list string) : bool :=
  existsb (String.eqb k) l.

Section Ops.
Context {T : Type}.

Fixpoint lookup_own (k : string) (l : list (string * T)) : option T :=
  match l with
  | [] => None
  | (k', v) :: rest => if String.eqb k k' then Some v else lookup_own k rest
  end.

(** [Object.prototype.hasOwnProperty.call(o, k)] *)
Definition hasOwnProperty (o : obj T) (k : string) : bool :=
  match lookup_own k (own o) with Some _ => true | None => false end.

(** [k in o]: an own property or one of the prototype chain. *)
Definition has_property (o : obj T) (k : string) : bool :=
  hasOwnProperty o k
  || match proto o with
     | NullProto => false
     | ObjectPrototype => mem_string k object_prototype_keys
     end.

(** The property read [o[k]]: the own property if there is one, else
    what the prototype chain provides. *)
Definition get (o : obj T) (k : string) : jsval T :=
  match lookup_own k (own o) with
  | Some v => VData v
  | None =>
      match proto o with
      | NullProto => VUndefined
      | ObjectPrototype =>
          if mem_string k object_prototype_keys then VBuiltin k
          else VUndefined
      end
  end.

Fixpoint replace_own (k : string) (v : T) (l : list (string * T))
  : list (string * T) :=
  match l with
  | [] => []
  | (k', v') :: rest =>
      if String.eqb k k' then (k', v) :: rest
      else (k', v') :: replace_own k v rest
  end.

(** The assignment [o[k] = v]: an existing own property keeps its
    place, a new one is created last.  On an object that inherits
    from [Object.prototype] the key ["__proto__"] reaches the
    inherited setter and creates no own property (the prototype it
    installs is not tracked: no collection of the program is such an
    object). *)
Definition set (o : obj T) (k : string) (v : T) : obj T :=
  match lookup_own k (own o) with
  | Some _ => mkObj (replace_own k v (own o)) (proto o)
  | None =>
      match proto o with
      | ObjectPrototype =>
          if String.eqb k "__proto__" then o
          else mkObj (own o ++ [(k, v)]) (proto o)
      | NullProto => mkObj (own o ++ [(k, v)]) (proto o)
      end
  end.

(** *** Enumeration order

    [for (const key in o)] enumerates the own enumerable string keys
    in the order of OrdinaryOwnPropertyKeys: array indices in
    ascending numeric order, then the other keys in creation order;
    then the enumerable properties of the prototype chain, of which
    [Object.prototype] has none. *)

Definition digit_of (c : ascii) : option N :=
  let n := N_of_ascii c in
  if ((48 <=? n) && (n <=? 57))%N then Some (n - 48)%N else None.

Fixpoint parse_digits (s : string) (acc : N) : option N :=
  match s with
  | EmptyString => Some acc
  | String c rest =>
      match digit_of c with
      | Some d => parse_digits rest (10 * acc + d)%N
      | None => None
      end
  end.

(** A key is an array index when it is the canonical decimal string
    of an integer in [0 .. 2^32 - 2]. *)
Definition array_index (s : string) : option N :=
  match s with
  | EmptyString => None
  | String c rest =>
      if Ascii.eqb c "0"%char && negb (String.eqb rest "") then None
      else
        match parse_digits s 0 with
        | Some n => if (n <? 2 ^ 32 - 1)%N then Some n else None
        | None => None
        end
  end.

Definition is_index (e : string * T) : bool :=
  match array_index (fst e) with Some _ => true | None => false end.

Definition index_of (e : string * T) : N :=
  match array_index (fst e) with Some n => n | None => 0%N end.

Fixpoint insert_sorted (e : string * T) (l : list (string * T))
  : list (string * T) :=
  match l with
  | [] => [e]
  | e' :: rest =>
      if (index_of e <=? index_of e')%N then e :: l
      else e' :: insert_sorted e rest
  end.

Fixpoint sort_indices (l : list (string * T)) : list (string * T) :=
  match l with
  | [] => []
  | e :: rest => insert_sorted e (sort_indices rest)
  end.

Definition ordered_own (o : obj T) : list (string * T) :=
  sort_indices (filter is_index (own o))
    ++ filter (fun e => negb (is_index e)) (own o).

(** The keys [for (const key in o)] binds, in order. *)
Definition forIn_keys (o : obj T) : list string :=
  map fst (ordered_own o).

(** Own keys are pairwise distinct: the invariant of every object
    built by [set]. *)
Definition wf (o : obj T) : Prop := NoDup (map fst (own o)).

End Ops.

End JsObject.

(* ===================================================================== *)
(** ** lodash's [has] *)
(* ===================================================================== *)

Module Lodash.
Import JsObject.

(** [has(object, path)] reads its second argument as a property path:
    [has({a: {b: 2}}, "a.b")] is true.  A string is taken as one key
    when it has no path syntax or when it is a property of the object
    (own or inherited); else it is cut into the keys of a path, which
    [has] follows through own properties, from the object into the
    values it stores.  How lodash parses a string, and what the stored
    values hold, is left open here. *)
Class Paths (T : Type) : Type := {
  (** [reIsPlainProp.test(key)] *)
  reIsPlainProp : string -> bool;
  (** [reIsDeepProp.test(key)] *)
  reIsDeepProp : string -> bool;
  (** [stringToPath(key)] *)
  stringToPath : string -> list string;
  (** [hasPath] continued in a stored value, along a path that is not
      empty *)
  hasPathIn : T -> list string -> bool
}.

Section Has.
Context {T : Type} {P : Paths T}.

(** [isKey(key, object)] *)
Definition isKey (key : string) (object : obj T) : bool :=
  reIsPlainProp key || negb (reIsDeepProp key) || has_property object key.

(** [castPath(key, object)] *)
Definition castPath (key : string) (object : obj T) : list string :=
  if isKey key object then [key] else stringToPath key.

(** [hasPath(object, path, baseHas)] on an object that is neither an
    array nor an [arguments] object: the first key must be an own
    property; the rest of the path is followed in its value. *)
Definition hasPath (object : obj T) (path : list string) : bool :=
  match path with
  | [] => false
  | key :: rest =>
      match lookup_own key (own object) with
      | None => false
      | Some value =>
          match rest with
          | [] => true
          | _ :: _ => hasPathIn value rest
          end
      end
  end.

(** [has(object, key)] *)
Definition has (object : obj T) (key : string) : bool :=
  hasPath object (castPath key object).

End Has.

End Lodash.

(* ===================================================================== *)
(** ** semantic-model utilities *)
(* ===================================================================== *)

Module Utils.
Import JsString JsObject Lodash.

(** [newMap]: [Object.create(null)], an object without a prototype. *)
Definition newMap {T : Type} : obj T := mkObj [] NullProto.

(** [getParentFqn] *)
Definition getParentFqn (fqn name : string) : option string :=
  if negb (isEmpty fqn) && endsWith fqn ("." ++ name) then
    Some (js_substring fqn 0 (js_length fqn - (js_length name + 1)))
  else None.

(** [findValueInMaps]: the rest parameter is the list [maps]. *)
Fixpoint findValueInMaps {T : Type} {P : Paths T} (key : string)
  (maps : list (obj T)) : jsval T :=
  match maps with
  | [] => VUndefined
  | mapElement :: rest =>
      if has mapElement key then get mapElement key
      else findValueInMaps key rest
  end.

(** The six collections of a [UI5SemanticModel].  The kinds of node
    share the base type [BaseUI5Node], which is all [forEachSymbol]
    relies on. *)
Record UI5SemanticModel (Node : Type) : Type := mkModel {
  classes : obj Node;
  enums : obj Node;
  namespaces : obj Node;
  interfaces : obj Node;
  typedefs : obj Node;
  functions : obj Node
}.
Arguments mkModel {Node}.
Arguments classes {Node} u.
Arguments enums {Node} u.
Arguments namespaces {Node} u.
Arguments interfaces {Node} u.
Arguments typedefs {Node} u.
Arguments functions {Node} u.

(** What the iteratee returns, of type [boolean | void]. *)
Inductive IterResult : Type := RetFalse | RetTrue | RetVoid.

(** [keepIterating === false] *)
Definition is_false (r : IterResult) : bool :=
  match r with RetFalse => true | _ => false end.

Section ForEachSymbol.
Context {Node : Type}.
(** The iteratee is a closure: [St] is the state it captures.  It has
    no handle on the model, which it therefore cannot change while
    the traversal runs. *)
Context {St : Type}.
Variable iteratee : St -> jsval Node -> string -> St * IterResult.

(** The inner loop [for (const key in mapElement)]; the boolean tells
    whether [break main] was taken. *)
Fixpoint forIn_loop (mapElement : obj Node) (keys : list string) (st : St)
  : St * bool :=
  match keys with
  | [] => (st, false)
  | key :: rest =>
      let (st', keepIterating) := iteratee st (get mapElement key) key in
      if is_false keepIterating then (st', true)
      else forIn_loop mapElement rest st'
  end.

(** The outer loop [main: for (const mapElement of typeMaps)]. *)
Fixpoint main_loop (typeMaps : list (obj Node)) (st : St) : St :=
  match typeMaps with
  | [] => st
  | mapElement :: rest =>
      let (st', broke) := forIn_loop mapElement (forIn_keys mapElement) st in
      if broke then st' else main_loop rest st'
  end.

Definition typeMaps (model : UI5SemanticModel Node) : list (obj Node) :=
  [ classes model; enums model; namespaces model;
    interfaces model; typedefs model; functions model ].

(** [forEachSymbol] *)
Definition forEachSymbol (model : UI5SemanticModel Node) (st : St) : St :=
  main_loop (typeMaps model) st.

End ForEachSymbol.


(** *** The catalog lookups of the spec *)

(** Modelled from the spec: [findByFqn] is not among the sources at
    hand.  Sections 3 and 4.1: the lookup of a symbol by FQN across all
    collections, searched in the fixed order classes, enums, namespaces,
    interfaces, typedefs, functions; the first match wins; the result is
    the symbol or none. *)
Definition findByFqn {Node : Type} (model : UI5SemanticModel Node)
  (fqn : string) : option Node :=
  match lookup_own fqn (own (classes model)) with
  | Some symbol => Some symbol
  | None =>
  match lookup_own fqn (own (enums model)) with
  | Some symbol => Some symbol
  | None =>
  match lookup_own fqn (own (namespaces model)) with
  | Some symbol => Some symbol
  | None =>
  match lookup_own fqn (own (interfaces model)) with
  | Some symbol => Some symbol
  | None =>
  match lookup_own fqn (own (typedefs model)) with
  | Some symbol => Some symbol
  | None => lookup_own fqn (own (functions model))
  end end end end end.

(** Modelled from the spec: [findInCollections(fqn, collections...)] of
    section 4.1 is [findValueInMaps] under the spec's name, its result
    read as "symbol or none". *)
Definition findInCollections {Node : Type} {P : Paths Node} (fqn : string)
  (collections : list (obj Node)) : option Node :=
  match findValueInMaps fqn collections with
  | VData symbol => Some symbol
  | _ => None
  end.

(** *** The traversal order of the spec *)

Section Traversal.
Context {Node : Type}.
Context {St : Type}.
Variable iteratee : St -> jsval Node -> string -> St * IterResult.

(** What one collection hands to the iteratee, in enumeration order. *)
Definition entries_of (mapElement : obj Node) : list (jsval Node * string) :=
  map (fun key => (get mapElement key, key)) (forIn_keys mapElement).

(** The traversal order of the spec, collection by collection: the
    entries of the classes, then of the enums, the namespaces, the
    interfaces, the typedefs and the functions. *)
Definition traversal (model : UI5SemanticModel Node)
  : list (jsval Node * string) :=
  entries_of (classes model) ++ entries_of (enums model)
  ++ entries_of (namespaces model) ++ entries_of (interfaces model)
  ++ entries_of (typedefs model) ++ entries_of (functions model).

(** The iteratee, made to keep a log of the arguments of its calls. *)
Definition recording (s : St * list (jsval Node * string)) (v : jsval Node)
  (key : string) : (St * list (jsval Node * string)) * IterResult :=
  let (st', r) := iteratee (fst s) v key in
  ((st', snd s ++ [(v, key)]), r).

(** The spec's reading of the traversal, as one loop over the traversal
    order: call the iteratee on each entry in turn and stop for good
    after the first call that returns [false].  The result is the final
    state, the entries visited, and whether the traversal was
    stopped. *)
Fixpoint visit_until_stop (es : list (jsval Node * string)) (st : St)
  : St * list (jsval Node * string) * bool :=
  match es with
  | [] => (st, [], false)
  | e :: rest =>
      let (st', r) := iteratee st (fst e) (snd e) in
      if is_false r then (st', [e], true)
      else
        let '(st'', log, stopped) := visit_until_stop rest st' in
        (st'', e :: log, stopped)
  end.

End Traversal.


(** The assignments [o[key] = value], in order. *)
Definition assign_all {T : Type} (o : obj T) (entries : list (string * T))
  : obj T :=
  fold_left (fun o kv => set o (fst kv) (snd kv)) entries o.

(** A collection as the program builds one: created by [newMap], then
    filled by assignments. *)
Definition populate {T : Type} (entries : list (string * T)) : obj T :=
  assign_all newMap entries.

End Utils.


(* ===================================================================== *)
(** ** A concrete catalog *)
(* ===================================================================== *)

Module SampleCatalog.
Import JsObject Lodash Utils.

(** A symbol with string members, such as [name] and [kind]. *)
Definition Node : Type := list (string * string).

(** [\w]: a letter, a digit or the underscore. *)
Definition is_word (c : ascii) : bool :=
  let n := N_of_ascii c in
  ((48 <=? n) && (n <=? 57) || (65 <=? n) && (n <=? 90)
   || (97 <=? n) && (n <=? 122) || (n =? 95))%N.

(** [/^\w*$/] *)
Fixpoint all_word (s : string) : bool :=
  match s with
  | EmptyString => true
  | String c rest => is_word c && all_word rest
  end.

(** [reIsDeepProp] on a string without bracket: it has a dot. *)
Fixpoint contains_dot (s : string) : bool :=
  match s with
  | EmptyString => false
  | String c rest => Ascii.eqb c "."%char || contains_dot rest
  end.

Fixpoint split_dots (s current : string) : list string :=
  match s with
  | EmptyString => [current]
  | String c rest =>
      if Ascii.eqb c "."%char then current :: split_dots rest ""
      else split_dots rest (current ++ String c "")
  end.

(** [stringToPath] on a string without bracket: its parts between the
    dots. *)
Definition dot_path (s : string) : list string :=
  match s with
  | EmptyString => []
  | _ => split_dots s ""
  end.

(** [hasPath] in a string: its own properties are [length] and the
    indices of its code units, each a string of one code unit. *)
Fixpoint string_has_path (s : string) (path : list string) : bool :=
  match path with
  | [] => true
  | key :: rest =>
      if String.eqb key "length" then
        match rest with [] => true | _ :: _ => false end
      else
        match array_index key with
        | Some i =>
            match String.get (N.to_nat i) s with
            | Some c => string_has_path (String c "") rest
            | None => false
            end
        | None => false
        end
  end.

(** [hasPath] in a symbol. *)
Definition node_has_path (node : Node) (path : list string) : bool :=
  match path with
  | [] => true
  | key :: rest =>
      match lookup_own key node with
      | Some s => string_has_path s rest
      | None => false
      end
  end.

Definition paths : Paths Node := {|
  reIsPlainProp := all_word;
  reIsDeepProp := contains_dot;
  stringToPath := dot_path;
  hasPathIn := node_has_path
|}.

(** The namespace [sap]. *)
Definition sap_namespace : Node :=
  [("kind", "UI5Namespace"); ("name", "sap")].

(** A function whose FQN is [sap.name]. *)
Definition name_function : Node :=
  [("kind", "UI5Function"); ("name", "name")].

Definition button_class : Node :=
  [("kind", "UI5Class"); ("name", "Button")].

Definition model : UI5SemanticModel Node :=
  mkModel (populate [("sap.m.Button", button_class)])
          newMap
          (populate [("sap", sap_namespace)])
          newMap
          newMap
          (populate [("sap.name", name_function)]).

(** An iteratee that counts its calls and returns [false] on the entry
    whose key is [fqn]. *)
Definition stop_at (fqn : string) (count : nat) (v : jsval Node)
  (key : string) : nat * IterResult :=
  (S count, if String.eqb key fqn then RetFalse else RetVoid).

End SampleCatalog.

(* ===================================================================== *)
(** ** The language server *)
(* ===================================================================== *)

Module Server.
Import JsString.

(** *** External collaborators

    The server composes functions of other packages (the context
    builder, the feature components, the document manager, the
    connection).  Their data is opaque to the server except for the
    members it reads; the two pure helpers [isXMLView] and
    [URI.parse(_).fsPath] are functions of their argument. *)
Class Collaborators : Type := {
  Context : Type;
  ContextError : Type;
  UI5Framework : Type;
  UI5Version : Type;
  Url : Type;
  TextDocument : Type;
  Position : Type;
  Settings : Type;
  CompletionItem : Type;
  Hover : Type;
  Diagnostic : Type;
  CodeAction : Type;
  (** [context.ui5Model.version] *)
  ui5Model_version : Context -> UI5Version;
  (** [context.ui5Model.isFallback] *)
  ui5Model_isFallback : Context -> bool;
  (** [context.ui5Model.isIncorrectVersion] *)
  ui5Model_isIncorrectVersion : Context -> bool;
  (** [context.yamlDetails.framework] *)
  yamlDetails_framework : Context -> UI5Framework;
  (** [document.uri] *)
  doc_uri : TextDocument -> string;
  isXMLView : string -> bool;
  (** [URI.parse(uri).fsPath] *)
  fsPath : string -> string
}.

(** [FileChangeType]: 1, 2, 3 *)
Inductive FileChangeType : Type := Created | Changed | Deleted.

Record FileEvent : Type := mkFileEvent {
  uri : string;
  type : FileChangeType
}.

Section Handlers.
Context {X : Collaborators}.

Record TextDocumentPositionParams : Type := mkPositionParams {
  textDocument_uri : string;
  position : Position
}.

Record CodeActionParams : Type := mkCodeActionParams {
  ca_textDocument_uri : string;
  ca_context_diagnostics : list Diagnostic
}.

(** The module-level variables [onInitialize] assigns. *)
Record ServerState : Type := mkServerState {
  (** [manifestStateInitialized !== undefined] *)
  manifestStateInitialized : bool;
  (** [ui5yamlStateInitialized !== undefined] *)
  ui5yamlStateInitialized : bool;
  (** [initializationOptions?.modelCachePath] *)
  modelCachePath : option string;
  hasConfigurationCapability : bool
}.

(** What [getContext] resolves to: a [Context] or, as a value, a
    [ContextError]. *)
Definition ContextResult : Type := (Context + ContextError)%type.

(** Modelled from the spec: [isContext] belongs to the context package,
    which is not part of the sources at hand; section 6 describes it as
    the discriminant between a successful Context and a ContextError. *)
Definition isContext (context : ContextResult) : bool :=
  match context with inl _ => true | inr _ => false end.

(** The asynchronous functions the handlers await.  Each call returns a
    promise; the awaiting function is suspended until it settles. *)
Inductive ACall : Type :=
| GetContext (documentPath : string) (cachePath : option string)
| GetCDNBaseUrl (framework : UI5Framework) (version : UI5Version)
| GetSettingsForDocument (resource : string)
| ReactOnManifestChange (uri : string) (changeType : FileChangeType)
| ReactOnUI5YamlChange (uri : string) (changeType : FileChangeType)
| ReactOnXmlFileChange (uri : string) (changeType : FileChangeType)
| ReactOnPackageJson (uri : string) (changeType : FileChangeType)
| ReactOnCdsFileChange (fileEvents : list FileEvent)
(** [Promise.all([manifestStateInitialized, ui5yamlStateInitialized])] *)
| StateInitialized.

(** The value a fulfilled call resolves to. *)
Definition AResp (c : ACall) : Type :=
  match c with
  | GetContext _ _ => ContextResult
  | GetCDNBaseUrl _ _ => Url
  | GetSettingsForDocument _ => Settings
  | _ => unit
  end.

(** The synchronous functions the handlers call. *)
Inductive SCall : Type :=
| DocumentsGet (uri : string)
| DocumentsAll
| GetCompletionItems (context : Context) (params : TextDocumentPositionParams)
    (document : TextDocument) (documentSettings : Settings)
| GetHoverResponse (context : Context) (params : TextDocumentPositionParams)
    (document : TextDocument)
| GetXMLViewDiagnostics (document : TextDocument) (context : Context)
| DiagnosticToCodeActionFix (document : TextDocument)
    (diagnostics : list Diagnostic) (context : Context)
| HasSettingsForDocument (resource : string)
(** [connection.workspace.getConfiguration({scopeUri, section})]: the
    request is issued, its promise is not awaited. *)
| WorkspaceGetConfiguration (scopeUri : string)
| SetSettingsForDocument (resource : string).

Definition SResp (c : SCall) : Type :=
  match c with
  | DocumentsGet _ => option TextDocument
  | DocumentsAll => list TextDocument
  | GetCompletionItems _ _ _ _ => list CompletionItem
  | GetHoverResponse _ _ _ => option Hover
  | GetXMLViewDiagnostics _ _ => list Diagnostic
  | DiagnosticToCodeActionFix _ _ _ => list CodeAction
  | HasSettingsForDocument _ => bool
  | WorkspaceGetConfiguration _ => unit
  | SetSettingsForDocument _ => unit
  end.

(** What the server sends on its connection. *)
Inductive Message : Type :=
(** [sendNotification("UI5LanguageAssistant/context-error", error)] *)
| ContextErrorNotification (error : ContextError)
(** [sendNotification("UI5LanguageAssistant/ui5Model", {url, framework,
    version, isFallback, isIncorrectVersion})] *)
| UI5ModelNotification (url : Url) (framework : UI5Framework)
    (version : UI5Version) (isFallback isIncorrectVersion : bool)
(** [sendDiagnostics({uri, diagnostics})] *)
| PublishDiagnostics (uri : string) (diagnostics : list Diagnostic).

Definition notification_method (m : Message) : option string :=
  match m with
  | ContextErrorNotification _ => Some "UI5LanguageAssistant/context-error"
  | UI5ModelNotification _ _ _ _ _ => Some "UI5LanguageAssistant/ui5Model"
  | PublishDiagnostics _ _ => None
  end.

(** *** Asynchronous functions

    The body of an [async] function, as a tree of the steps it takes:
    awaiting an external call, calling a synchronous collaborator,
    sending on the connection, and using the array [cdsFileEvents] that
    the watched-files handler shares with its callbacks.  (Logger calls
    are left out.) *)
Inductive Proc (A : Type) : Type :=
| Ret (a : A)
| Await (c : ACall) (k : AResp c -> Proc A)
| Invoke (c : SCall) (k : SResp c -> Proc A)
| Send (m : Message) (k : Proc A)
| ArrayPush (e : FileEvent) (k : Proc A)
| ArrayRead (k : list FileEvent -> Proc A).
Arguments Ret {A} a.
Arguments Await {A} c k.
Arguments Invoke {A} c k.
Arguments Send {A} m k.
Arguments ArrayPush {A} e k.
Arguments ArrayRead {A} k.

Fixpoint bind {A B : Type} (p : Proc A) (f : A -> Proc B) : Proc B :=
  match p with
  | Ret a => f a
  | Await c k => Await c (fun r => bind (k r) f)
  | Invoke c k => Invoke c (fun r => bind (k r) f)
  | Send m k => Send m (bind k f)
  | ArrayPush e k => ArrayPush e (bind k f)
  | ArrayRead k => ArrayRead (fun l => bind (k l) f)
  end.

Definition await (c : ACall) : Proc (AResp c) := Await c Ret.
Definition invoke (c : SCall) : Proc (SResp c) := Invoke c Ret.
Definition send (m : Message) : Proc unit := Send m (Ret tt).
Definition array_push (e : FileEvent) : Proc unit := ArrayPush e (Ret tt).
Definition array_read : Proc (list FileEvent) := ArrayRead Ret.

(** A function that calls [async] functions without awaiting them: each
    such call starts a task of its own. *)
Inductive Job : Type :=
| Spawn (child : Proc unit) (rest : Job)
| Body (p : Proc unit).

End Handlers.

Arguments Ret {X A} a.
Arguments Await {X A} c k.
Arguments Invoke {X A} c k.
Arguments Send {X A} m k.
Arguments ArrayPush {X A} e k.
Arguments ArrayRead {X A} k.

Declare Scope proc_scope.
Delimit Scope proc_scope with proc.
Notation "x <- c ;; k" := (bind c (fun x => k))
  (at level 61, c at next level, right associativity) : proc_scope.
Notation "c ;; k" := (bind c (fun _ => k))
  (at level 61, right associativity) : proc_scope.
Open Scope proc_scope.

Section Programs.
Context {X : Collaborators}.

(** *** [ensureDocumentSettingsUpdated] *)
Definition ensureDocumentSettingsUpdated (st : ServerState) (resource : string)
  : Proc unit :=
  if negb (hasConfigurationCapability st) then Ret tt
  else
    known <- invoke (HasSettingsForDocument resource) ;;
    if negb known then
      invoke (WorkspaceGetConfiguration resource) ;;
      invoke (SetSettingsForDocument resource)
    else Ret tt.

(** The notification every handler sends after a successful
    [getContext]. *)
Definition publish_ui5Model (context : Context) : Proc unit :=
  let version := ui5Model_version context in
  let framework := yamlDetails_framework context in
  let isFallback := ui5Model_isFallback context in
  let isIncorrectVersion := ui5Model_isIncorrectVersion context in
  url <- await (GetCDNBaseUrl framework version) ;;
  send (UI5ModelNotification url framework version isFallback isIncorrectVersion).

(** *** [connection.onCompletion] *)
Definition onCompletion (st : ServerState)
  (textDocumentPosition : TextDocumentPositionParams)
  : Proc (list CompletionItem) :=
  let documentUri := textDocument_uri textDocumentPosition in
  document <- invoke (DocumentsGet documentUri) ;;
  match document with
  | Some document =>
      let documentPath := fsPath documentUri in
      context <- await (GetContext documentPath (modelCachePath st)) ;;
      match context with
      | inr error => send (ContextErrorNotification error) ;; Ret []
      | inl context =>
          publish_ui5Model context ;;
          ensureDocumentSettingsUpdated st (doc_uri document) ;;
          documentSettings <- await (GetSettingsForDocument (doc_uri document)) ;;
          completionItems <-
            invoke (GetCompletionItems context textDocumentPosition
                      document documentSettings) ;;
          Ret completionItems
      end
  | None => Ret []
  end.

(** *** [connection.onHover] *)
Definition onHover (st : ServerState)
  (textDocumentPosition : TextDocumentPositionParams)
  : Proc (option Hover) :=
  let documentUri := textDocument_uri textDocumentPosition in
  document <- invoke (DocumentsGet documentUri) ;;
  match document with
  | Some document =>
      let documentPath := fsPath documentUri in
      context <- await (GetContext documentPath (modelCachePath st)) ;;
      match context with
      | inr error => send (ContextErrorNotification error) ;; Ret None
      | inl context =>
          publish_ui5Model context ;;
          hoverResponse <-
            invoke (GetHoverResponse context textDocumentPosition document) ;;
          Ret hoverResponse
      end
  | None => Ret None
  end.

(** *** [validateOpenDocuments] *)
Definition supportedDocs : list string :=
  [ "manifest.json"; "ui5.yaml"; ".cds"; ".xml"; "package.json" ].

(** The predicate given to [changes.find]. *)
Definition is_supported_change (change : FileEvent) : bool :=
  negb (isXMLView (uri change))
  && match find (fun doc => endsWith (uri change) doc) supportedDocs with
     | Some _ => true
     | None => false
     end.

(** The loop [for (const document of allDocuments)]. *)
Fixpoint validate_loop (st : ServerState) (allDocuments : list TextDocument)
  : Proc unit :=
  match allDocuments with
  | [] => Ret tt
  | document :: rest =>
      let documentPath := fsPath (doc_uri document) in
      context <- await (GetContext documentPath (modelCachePath st)) ;;
      match context with
      | inr error => send (ContextErrorNotification error)
      | inl context =>
          diagnostics <- invoke (GetXMLViewDiagnostics document context) ;;
          send (PublishDiagnostics (doc_uri document) diagnostics) ;;
          validate_loop st rest
      end
  end.

Definition validateOpenDocuments (st : ServerState) (changes : list FileEvent)
  : Proc unit :=
  match find is_supported_change changes with
  | None => Ret tt
  | Some _ =>
      allDocuments <- invoke DocumentsAll ;;
      validate_loop st allDocuments
  end.

(** *** [connection.onDidChangeWatchedFiles] *)

(** The [async] callback given to [forEach]. *)
Definition on_change (change : FileEvent) : Proc unit :=
  let uri := uri change in
  if endsWith uri "manifest.json" then
    await (ReactOnManifestChange uri (type change))
  else if endsWith uri "ui5.yaml" then
    await (ReactOnUI5YamlChange uri (type change))
  else if endsWith uri ".cds" then
    array_push change
  else if endsWith uri ".xml" then
    await (ReactOnXmlFileChange uri (type change))
  else if endsWith uri "package.json" then
    await (ReactOnPackageJson uri (type change))
  else Ret tt.

(** lodash's [forEach] with an [async] iteratee: every call of the
    iteratee returns a promise, never [false], so no element is skipped,
    and the promise is dropped. *)
Fixpoint forEach {T : Type} (collection : list T) (iteratee : T -> Proc unit)
  (rest : Job) : Job :=
  match collection with
  | [] => rest
  | x :: xs => Spawn (iteratee x) (forEach xs iteratee rest)
  end.

Definition onDidChangeWatchedFiles (st : ServerState) (changes : list FileEvent)
  : Job :=
  forEach changes on_change
    (Body (cdsFileEvents <- array_read ;;
           await (ReactOnCdsFileChange cdsFileEvents) ;;
           validateOpenDocuments st changes)).

(** *** [documents.onDidChangeContent] *)
Definition onDidChangeContent (st : ServerState) (documentUri : string)
  : Proc unit :=
  if negb (manifestStateInitialized st)
     || negb (ui5yamlStateInitialized st)
     || negb (isXMLView documentUri)
  then Ret tt
  else
    await StateInitialized ;;
    document <- invoke (DocumentsGet documentUri) ;;
    match document with
    | Some document =>
        let documentPath := fsPath documentUri in
        context <- await (GetContext documentPath (modelCachePath st)) ;;
        match context with
        | inr error => send (ContextErrorNotification error)
        | inl context =>
            publish_ui5Model context ;;
            diagnostics <- invoke (GetXMLViewDiagnostics document context) ;;
            send (PublishDiagnostics documentUri diagnostics)
        end
    | None => Ret tt
    end.

(** *** [connection.onCodeAction] *)
Definition onCodeAction (st : ServerState) (params : CodeActionParams)
  : Proc (option (list CodeAction)) :=
  let docUri := ca_textDocument_uri params in
  textDocument <- invoke (DocumentsGet docUri) ;;
  match textDocument with
  | None => Ret (None : option (list CodeAction))
  | Some textDocument =>
      let documentPath := fsPath docUri in
      context <- await (GetContext documentPath (modelCachePath st)) ;;
      match context with
      | inr error =>
          send (ContextErrorNotification error) ;;
          Ret (None : option (list CodeAction))
      | inl context =>
          publish_ui5Model context ;;
          let diagnostics := ca_context_diagnostics params in
          codeActions <-
            invoke (DiagnosticToCodeActionFix textDocument diagnostics context) ;;
          Ret (Some (codeActions : list CodeAction))
      end
  end.

End Programs.


(** *** Executions

    What the outside world observes of a run: the external calls that
    are started and how they settle, the synchronous calls with their
    results, and the messages sent. *)
Section Semantics.
Context {X : Collaborators}.

Inductive Event : Type :=
| Started (c : ACall)
(** [None]: the promise was rejected *)
| Settled (c : ACall) (r : option (AResp c))
| Invoked (c : SCall) (r : SResp c)
| Sent (m : Message).

(** The collaborators are not interpreted: an environment gives, from
    the events so far, the way a call settles or the result it
    returns. *)
Record Env : Type := mkEnv {
  settle : list Event -> forall c : ACall, option (AResp c);
  answer : list Event -> forall c : SCall, SResp c
}.

Inductive Outcome (A : Type) : Type :=
| Returned (a : A)
(** an awaited promise was rejected; no handler catches *)
| Rejected.
Arguments Returned {A} a.
Arguments Rejected {A}.

(** The run of one asynchronous function on its own, from the events [h]
    so far and the array contents [cds]: its events and how it ends. *)
Fixpoint exec {A : Type} (env : Env) (p : Proc A) (h : list Event)
  (cds : list FileEvent) : list Event * Outcome A :=
  match p with
  | Ret a => ([], Returned a)
  | Await c k =>
      let r := settle env (h ++ [Started c]) c in
      match r with
      | Some v =>
          let (tr, o) := exec env (k v) (h ++ [Started c; Settled c r]) cds in
          (Started c :: Settled c r :: tr, o)
      | None => ([Started c; Settled c r], Rejected)
      end
  | Invoke c k =>
      let r := answer env h c in
      let (tr, o) := exec env (k r) (h ++ [Invoked c r]) cds in
      (Invoked c r :: tr, o)
  | Send m k =>
      let (tr, o) := exec env k (h ++ [Sent m]) cds in
      (Sent m :: tr, o)
  | ArrayPush e k => exec env k h (cds ++ [e])
  | ArrayRead k => exec env (k cds) h cds
  end.

(** Where a task stops when it runs without interruption. *)
Inductive Stop (A : Type) : Type :=
| Finished (a : A)
| Blocked (c : ACall) (k : AResp c -> Proc A).
Arguments Finished {A} a.
Arguments Blocked {A} c k.

(** A task runs until its first [await]: there the external function is
    called and the task is suspended. *)
Fixpoint advance {A : Type} (env : Env) (p : Proc A) (h : list Event)
  (cds : list FileEvent) : list Event * list FileEvent * Stop A :=
  match p with
  | Ret a => ([], cds, Finished a)
  | Await c k => ([Started c], cds, Blocked c k)
  | Invoke c k =>
      let r := answer env h c in
      let '(tr, cds', s) := advance env (k r) (h ++ [Invoked c r]) cds in
      (Invoked c r :: tr, cds', s)
  | Send m k =>
      let '(tr, cds', s) := advance env k (h ++ [Sent m]) cds in
      (Sent m :: tr, cds', s)
  | ArrayPush e k => advance env k h (cds ++ [e])
  | ArrayRead k => advance env (k cds) h cds
  end.

(** A suspended task: the call it awaits and what it does next. *)
Record Task : Type := mkTask {
  call : ACall;
  kont : AResp call -> Proc unit
}.

(** The event loop between two steps: the events so far, the array
    [cdsFileEvents], the suspended tasks. *)
Record Config : Type := mkConfig {
  trace : list Event;
  array : list FileEvent;
  pool : list Task
}.

Definition park (s : Stop unit) (pool : list Task) : list Task :=
  match s with
  | Finished _ => pool
  | Blocked c k => pool ++ [mkTask c k]
  end.

(** The synchronous start of a handler: every spawned function runs to
    its first [await], in order, then the body does. *)
Fixpoint start (env : Env) (j : Job) (cfg : Config) : Config :=
  match j with
  | Spawn child rest =>
      let '(tr, cds', s) := advance env child (trace cfg) (array cfg) in
      start env rest (mkConfig (trace cfg ++ tr) cds' (park s (pool cfg)))
  | Body p =>
      let '(tr, cds', s) := advance env p (trace cfg) (array cfg) in
      mkConfig (trace cfg ++ tr) cds' (park s (pool cfg))
  end.

Fixpoint remove_nth {T : Type} (i : nat) (l : list T) : list T :=
  match l, i with
  | [], _ => []
  | _ :: rest, O => rest
  | x :: rest, S i' => x :: remove_nth i' rest
  end.

Fixpoint replace_nth {T : Type} (i : nat) (y : T) (l : list T) : list T :=
  match l, i with
  | [], _ => []
  | _ :: rest, O => y :: rest
  | x :: rest, S i' => x :: replace_nth i' y rest
  end.

(** One turn of the event loop: the call awaited by the [i]-th suspended
    task settles and that task runs to its next [await].  A rejection
    ends the task, which has no handler for it.  A turn that names no
    task does nothing. *)
Definition resume (env : Env) (i : nat) (cfg : Config) : Config :=
  match nth_error (pool cfg) i with
  | None => cfg
  | Some t =>
      let r := settle env (trace cfg) (call t) in
      let h := trace cfg ++ [Settled (call t) r] in
      match r with
      | None => mkConfig h (array cfg) (remove_nth i (pool cfg))
      | Some v =>
          let '(tr, cds', s) := advance env (kont t v) h (array cfg) in
          mkConfig (h ++ tr) cds'
            match s with
            | Finished _ => remove_nth i (pool cfg)
            | Blocked c k => replace_nth i (mkTask c k) (pool cfg)
            end
      end
  end.

(** The order in which the pending calls settle is the environment's:
    a schedule lists, turn by turn, the task that is resumed. *)
Definition run (env : Env) (schedule : list nat) (cfg : Config) : Config :=
  fold_left (fun cfg i => resume env i cfg) schedule cfg.

Definition initial : Config := mkConfig [] [] [].

Definition run_job (env : Env) (schedule : list nat) (j : Job) : Config :=
  run env schedule (start env j initial).

(** *** Readings of a trace *)

(** The batches [reactOnCdsFileChange] was called with. *)
Definition cds_batches (tr : list Event) : list (list FileEvent) :=
  flat_map (fun e => match e with
                     | Started (ReactOnCdsFileChange l) => [l]
                     | _ => []
                     end) tr.

(** The documents whose diagnostics were published. *)
Definition published (tr : list Event) : list string :=
  flat_map (fun e => match e with
                     | Sent (PublishDiagnostics u _) => [u]
                     | _ => []
                     end) tr.

(** The documents whose diagnostics were computed. *)
Definition diagnosed (tr : list Event) : list TextDocument :=
  flat_map (fun e => match e with
                     | Invoked (GetXMLViewDiagnostics d _) _ => [d]
                     | _ => []
                     end) tr.

(** The errors sent as context-error notifications. *)
Definition context_errors_sent (tr : list Event) : list ContextError :=
  flat_map (fun e => match e with
                     | Sent (ContextErrorNotification err) => [err]
                     | _ => []
                     end) tr.

(** The errors [getContext] resolved to. *)
Definition context_errors_got (tr : list Event) : list ContextError :=
  flat_map (fun e => match e with
                     | Settled (GetContext _ _) (Some (inr err)) => [err]
                     | _ => []
                     end) tr.

(** The contexts [getContext] resolved to. *)
Definition contexts_got (tr : list Event) : list Context :=
  flat_map (fun e => match e with
                     | Settled (GetContext _ _) (Some (inl ctx)) => [ctx]
                     | _ => []
                     end) tr.




(** The shapes a run of [validate_loop] can take: it runs through, or
    stops at the first document whose [getContext] is rejected or
    resolves to an error. *)
Inductive loop_run (st : ServerState)
  : list TextDocument -> list Event -> Outcome unit -> Prop :=
| loop_done : loop_run st [] [] (Returned tt)
| loop_rejected document rest :
    loop_run st (document :: rest)
      [ Started (GetContext (fsPath (doc_uri document)) (modelCachePath st));
        Settled (GetContext (fsPath (doc_uri document)) (modelCachePath st))
          None ]
      Rejected
| loop_error document rest error :
    loop_run st (document :: rest)
      [ Started (GetContext (fsPath (doc_uri document)) (modelCachePath st));
        Settled (GetContext (fsPath (doc_uri document)) (modelCachePath st))
          (Some (inr error));
        Sent (ContextErrorNotification error) ]
      (Returned tt)
| loop_next document rest context diagnostics tr o :
    loop_run st rest tr o ->
    loop_run st (document :: rest)
      ( Started (GetContext (fsPath (doc_uri document)) (modelCachePath st))
        :: Settled (GetContext (fsPath (doc_uri document)) (modelCachePath st))
             (Some (inl context))
        :: Invoked (GetXMLViewDiagnostics document context) diagnostics
        :: Sent (PublishDiagnostics (doc_uri document) diagnostics)
        :: tr )
      o.

(** *** The watched-files handler under every schedule *)

(** The call is the batched [reactOnCdsFileChange]. *)
Definition is_batch_call (c : ACall) : bool :=
  match c with ReactOnCdsFileChange _ => true | _ => false end.

(** The event is the fulfilment of the batched call. *)
Definition is_batch_fulfilled (e : Event) : bool :=
  match e with
  | Settled (ReactOnCdsFileChange _) (Some _) => true
  | _ => false
  end.

Definition is_documents_read (e : Event) : bool :=
  match e with Invoked DocumentsAll _ => true | _ => false end.

(** In the trace, the fulfilment of the batched call is each time
    directly followed by the reading of the open documents. *)
Fixpoint pass_follows_batch (tr : list Event) : bool :=
  match tr with
  | [] => true
  | e :: rest =>
      (if is_batch_fulfilled e then
         match rest with
         | e' :: _ => is_documents_read e'
         | [] => false
         end
       else true)
      && pass_follows_batch rest
  end.

(** A function that never calls [reactOnCdsFileChange] and never pushes
    to the array. *)
Inductive quiet {A : Type} : Proc A -> Prop :=
| quiet_ret a : quiet (Ret a)
| quiet_await c k :
    is_batch_call c = false -> (forall r, quiet (k r)) -> quiet (Await c k)
| quiet_invoke c k : (forall r, quiet (k r)) -> quiet (Invoke c k)
| quiet_send m k : quiet k -> quiet (Send m k)
| quiet_read k : (forall l, quiet (k l)) -> quiet (ArrayRead k).

(** What holds of every suspended task of the watched-files handler: it
    is quiet from now on, and if it awaits the batched call it is the
    handler itself, about to call [validateOpenDocuments]. *)
Definition task_ok (st : ServerState) (changes : list FileEvent) (t : Task)
  : Prop :=
  (forall r, quiet (kont t r))
  /\ (is_batch_call (call t) = true ->
      forall r, kont t r = validateOpenDocuments st changes).

(** The changes to data-model annotation files, in receipt order. *)
Definition cds_changes (changes : list FileEvent) : list FileEvent :=
  filter (fun change => endsWith (uri change) ".cds") changes.

(** What every turn of the event loop preserves in a run of the
    watched-files handler. *)
Record invariant (st : ServerState) (changes : list FileEvent) (cfg : Config)
  : Prop := mkInvariant {
  inv_pool : Forall (task_ok st changes) (pool cfg);
  inv_batches : cds_batches (trace cfg) = [cds_changes changes];
  inv_array : array cfg = cds_changes changes;
  inv_pass :
    find is_supported_change changes <> None ->
    pass_follows_batch (trace cfg) = true
}.

End Semantics.

Arguments Returned {A} a.
Arguments Rejected {A}.
Arguments Finished {X A} a.
Arguments Blocked {X A} c k.

End Server.

(* ===================================================================== *)
(** ** A concrete setting for runs *)
(* ===================================================================== *)

Module Sample.
Import JsString Server.

(** Collaborators with strings for data.  [isXMLView] is the test of the
    logic-utils package: the path ends in [view.xml] or
    [fragment.xml]. *)
Definition collaborators : Collaborators := {|
  Context := string;
  ContextError := string;
  UI5Framework := string;
  UI5Version := string;
  Url := string;
  TextDocument := string;
  Position := nat;
  Settings := unit;
  CompletionItem := string;
  Hover := string;
  Diagnostic := string;
  CodeAction := string;
  ui5Model_version := fun context => context;
  ui5Model_isFallback := fun _ => false;
  ui5Model_isIncorrectVersion := fun _ => false;
  yamlDetails_framework := fun _ => "SAPUI5";
  doc_uri := fun document => document;
  isXMLView := fun uri => endsWith uri "view.xml" || endsWith uri "fragment.xml";
  fsPath := fun uri => uri
|}.

Definition main_view : string := "webapp/view/Main.view.xml".

Definition state : ServerState :=
  mkServerState true true None false.

(** Synchronous collaborators: one open document, one diagnostic, one
    completion item. *)
Definition answers (h : list (Event (X := collaborators)))
  (c : SCall (X := collaborators)) : SResp c :=
  match c return SResp c with
  | DocumentsGet uri => Some uri
  | DocumentsAll => [main_view]
  | GetCompletionItems _ _ _ _ => ["sap.m.Button"]
  | GetHoverResponse _ _ _ => Some "sap.m.Button"
  | GetXMLViewDiagnostics _ _ => ["unknown class"]
  | DiagnosticToCodeActionFix _ _ _ => ["add stable id"]
  | HasSettingsForDocument _ => true
  | WorkspaceGetConfiguration _ => tt
  | SetSettingsForDocument _ => tt
  end.

Definition a_context : ContextResult (X := collaborators) :=
  inl "1.71.49".

Definition an_error : ContextResult (X := collaborators) :=
  inr "no model".

Definition a_url : @Url collaborators := "https://ui5.sap.com/1.71.49/".

(** Every call is fulfilled and [getContext] resolves to a context. *)
Definition env_ok : Env (X := collaborators) := {|
  settle := fun _ c =>
    match c return option (AResp c) with
    | GetContext _ _ => Some a_context
    | GetCDNBaseUrl _ _ => Some a_url
    | GetSettingsForDocument _ => Some tt
    | ReactOnManifestChange _ _ => Some tt
    | ReactOnUI5YamlChange _ _ => Some tt
    | ReactOnXmlFileChange _ _ => Some tt
    | ReactOnPackageJson _ _ => Some tt
    | ReactOnCdsFileChange _ => Some tt
    | StateInitialized => Some tt
    end;
  answer := answers
|}.

(** Every call is fulfilled and [getContext] resolves to an error. *)
Definition env_error : Env (X := collaborators) := {|
  settle := fun _ c =>
    match c return option (AResp c) with
    | GetContext _ _ => Some an_error
    | GetCDNBaseUrl _ _ => Some a_url
    | GetSettingsForDocument _ => Some tt
    | ReactOnManifestChange _ _ => Some tt
    | ReactOnUI5YamlChange _ _ => Some tt
    | ReactOnXmlFileChange _ _ => Some tt
    | ReactOnPackageJson _ _ => Some tt
    | ReactOnCdsFileChange _ => Some tt
    | StateInitialized => Some tt
    end;
  answer := answers
|}.

Definition a_request : @TextDocumentPositionParams collaborators :=
  @mkPositionParams collaborators main_view 3.


Definition detail_view : string := "webapp/view/Detail.view.xml".

Definition list_view : string := "webapp/view/List.view.xml".

(** Three open documents; [getContext] resolves to an error for the
    second one and to a context for the others. *)
Definition env_mixed : Env (X := collaborators) := {|
  settle := fun _ c =>
    match c return option (AResp c) with
    | GetContext documentPath _ =>
        if String.eqb documentPath detail_view then Some an_error
        else Some a_context
    | GetCDNBaseUrl _ _ => Some a_url
    | GetSettingsForDocument _ => Some tt
    | ReactOnManifestChange _ _ => Some tt
    | ReactOnUI5YamlChange _ _ => Some tt
    | ReactOnXmlFileChange _ _ => Some tt
    | ReactOnPackageJson _ _ => Some tt
    | ReactOnCdsFileChange _ => Some tt
    | StateInitialized => Some tt
    end;
  answer := fun h c =>
    match c return SResp c with
    | DocumentsAll => [main_view; detail_view; list_view]
    | c' => answers h c'
    end
|}.

(** The batched [reactOnCdsFileChange] is rejected; every other call is
    fulfilled. *)
Definition env_batch_rejected : Env (X := collaborators) := {|
  settle := fun h c =>
    match c return option (AResp c) with
    | ReactOnCdsFileChange _ => None
    | c' => settle env_ok h c'
    end;
  answer := answers
|}.

(** [getContext] is rejected; every other call is fulfilled. *)
Definition env_context_rejected : Env (X := collaborators) := {|
  settle := fun h c =>
    match c return option (AResp c) with
    | GetContext _ _ => None
    | c' => settle env_ok h c'
    end;
  answer := answers
|}.

Definition manifest_change : FileEvent :=
  mkFileEvent "webapp/manifest.json" Changed.

Definition view_change : FileEvent := mkFileEvent main_view Changed.

Definition cds_change_1 : FileEvent := mkFileEvent "srv/service.cds" Changed.

Definition cds_change_2 : FileEvent := mkFileEvent "db/schema.cds" Created.

End Sample.

(* ===================================================================== *)
(** ** Measures of a catalog *)
(* ===================================================================== *)

Module UtilsReadings.
Import JsObject Utils.

(** The number of entries of the six collections. *)
Definition symbol_count {Node : Type} (model : UI5SemanticModel Node) : nat :=
  List.length (own (classes model)) + List.length (own (enums model))
  + List.length (own (namespaces model))
  + List.length (own (interfaces model))
  + List.length (own (typedefs model))
  + List.length (own (functions model)).

End UtilsReadings.

(* ===================================================================== *)
(** ** Further readings of a trace *)
(* ===================================================================== *)

Module ServerReadings.
Import JsString Server.

Section Readings.
Context {X : Collaborators}.

(** The arguments of the calls of [getContext]. *)
Definition context_calls (tr : list Event) : list (string * option string) :=
  flat_map (fun e => match e with
                     | Started (GetContext documentPath cachePath) =>
                         [(documentPath, cachePath)]
                     | _ => []
                     end) tr.

(** The arguments of the calls of [getCDNBaseUrl]. *)
Definition cdn_calls (tr : list Event) : list (UI5Framework * UI5Version) :=
  flat_map (fun e => match e with
                     | Started (GetCDNBaseUrl framework version) =>
                         [(framework, version)]
                     | _ => []
                     end) tr.

(** The ui5Model notifications sent. *)
Definition ui5Model_sent (tr : list Event) : list Message :=
  flat_map (fun e => match e with
                     | Sent (UI5ModelNotification u f v b i) =>
                         [UI5ModelNotification u f v b i]
                     | _ => []
                     end) tr.

(** The resources whose cached settings were looked for. *)
Definition settings_probed (tr : list Event) : list string :=
  flat_map (fun e => match e with
                     | Invoked (HasSettingsForDocument resource) _ => [resource]
                     | _ => []
                     end) tr.

(** The resources whose configuration was requested from the client. *)
Definition configuration_requested (tr : list Event) : list string :=
  flat_map (fun e => match e with
                     | Invoked (WorkspaceGetConfiguration scopeUri) _ => [scopeUri]
                     | _ => []
                     end) tr.

(** The resources whose settings were stored. *)
Definition settings_stored (tr : list Event) : list string :=
  flat_map (fun e => match e with
                     | Invoked (SetSettingsForDocument resource) _ => [resource]
                     | _ => []
                     end) tr.

(** The feature computations: completion items, hover, diagnostics,
    code actions. *)
Definition is_feature_call (e : Event) : bool :=
  match e with
  | Invoked (GetCompletionItems _ _ _ _) _ => true
  | Invoked (GetHoverResponse _ _ _) _ => true
  | Invoked (GetXMLViewDiagnostics _ _) _ => true
  | Invoked (DiagnosticToCodeActionFix _ _ _) _ => true
  | _ => false
  end.

(** The event belongs to the validation pass or to any work on
    documents: a synchronous call, a message, a call of [getContext]. *)
Definition is_pass_event (e : Event) : bool :=
  match e with
  | Invoked _ _ => true
  | Sent _ => true
  | Started (GetContext _ _) => true
  | _ => false
  end.

(** The event neither belongs to the pass nor is the fulfilment of the
    batched call. *)
Definition calm (e : Event) : bool :=
  negb (is_pass_event e) && negb (is_batch_fulfilled e).

(** No event of the pass stands before the first fulfilment of the
    batched call. *)
Fixpoint no_pass_before_batch (tr : list Event) : bool :=
  match tr with
  | [] => true
  | e :: rest =>
      if is_batch_fulfilled e then true
      else negb (is_pass_event e) && no_pass_before_batch rest
  end.

Definition batch_fulfilled_in (tr : list Event) : bool :=
  existsb is_batch_fulfilled tr.

(** A suspended task of the watched-files handler before the batched
    call is fulfilled: the handler itself, awaiting that call, or a
    callback of [forEach], which ends when its reaction settles. *)
Definition task_pre (t : Task) : Prop :=
  is_batch_call (call t) = true \/ forall r, kont t r = Ret tt.

(** What every turn preserves, as to the order of batch and pass. *)
Record batch_first (cfg : Config) : Prop := mkBatchFirst {
  bf_trace : no_pass_before_batch (trace cfg) = true;
  bf_pool : batch_fulfilled_in (trace cfg) = true
            \/ Forall task_pre (pool cfg)
}.

(** *** The pass inside the watched-files handler *)

(** What the spec asks of a change for the pass to run: its path is not
    an XML view and ends in one of the five names. *)
Definition triggers_pass (change : FileEvent) : Prop :=
  isXMLView (uri change) = false
  /\ (endsWith (uri change) "manifest.json" = true
      \/ endsWith (uri change) "ui5.yaml" = true
      \/ endsWith (uri change) ".cds" = true
      \/ endsWith (uri change) ".xml" = true
      \/ endsWith (uri change) "package.json" = true).

(** The call is the reaction to a single path. *)
Definition is_reaction_call (c : ACall) : bool :=
  match c with
  | ReactOnManifestChange _ _ => true
  | ReactOnUI5YamlChange _ _ => true
  | ReactOnXmlFileChange _ _ => true
  | ReactOnPackageJson _ _ => true
  | _ => false
  end.

(** The event is one of the pass: a synchronous call, a message, a call
    of [getContext] or the way it settles.  The reactions and the
    batched call are not. *)
Definition is_pass_part (e : Event) : bool :=
  match e with
  | Invoked _ _ => true
  | Sent _ => true
  | Started (GetContext _ _) => true
  | Settled (GetContext _ _) _ => true
  | _ => false
  end.

(** The events of the pass, in order, without the events of the
    reactions that settle in between. *)
Definition pass_of (tr : list Event) : list Event := filter is_pass_part tr.

(** What the loop of the pass does once the [getContext] of [document]
    has resolved: the rest of its body, then the documents that
    remain. *)
Definition loop_kont (st : ServerState) (document : TextDocument)
  (rest : list TextDocument) (context : ContextResult) : Proc unit :=
  match context with
  | inr error => send (ContextErrorNotification error)
  | inl context =>
      diagnostics <- invoke (GetXMLViewDiagnostics document context) ;;
      send (PublishDiagnostics (doc_uri document) diagnostics) ;;
      validate_loop st rest
  end.

(** A suspended callback of [forEach]: it awaits a reaction. *)
Definition is_child (t : Task) : bool := is_reaction_call (call t).

(** The suspended tasks that are no callback: the handler itself. *)
Definition mains (tasks : list Task) : list Task :=
  filter (fun t => negb (is_child t)) tasks.

(** Every suspended callback ends when its reaction settles. *)
Definition children_ok (tasks : list Task) : Prop :=
  Forall (fun t => is_child t = true -> forall r, kont t r = Ret tt) tasks.

(** The events [pre] are the beginning of a run of the loop over
    [allDocuments] that has [remaining] left to do. *)
Definition loop_ctx (st : ServerState) (allDocuments : list TextDocument)
  (pre : list Event) (remaining : list TextDocument) : Prop :=
  forall tail o,
    loop_run st remaining tail o -> loop_run st allDocuments (pre ++ tail) o.

(** Where the handler stands between two turns of the event loop, in a
    burst for which the pass runs: it awaits the batched call; or that
    call was rejected and it has ended; or it is in the loop of the
    pass, awaiting the [getContext] of [document]; or the pass is
    over. *)
Inductive pass_state (st : ServerState) (changes : list FileEvent)
  (cfg : Config) : Prop :=
| pass_waiting cdsFileEvents :
    mains (pool cfg)
    = [mkTask (ReactOnCdsFileChange cdsFileEvents)
         (fun _ => validateOpenDocuments st changes)] ->
    pass_of (trace cfg) = [] ->
    batch_fulfilled_in (trace cfg) = false ->
    pass_state st changes cfg
| pass_never :
    mains (pool cfg) = [] ->
    pass_of (trace cfg) = [] ->
    batch_fulfilled_in (trace cfg) = false ->
    pass_state st changes cfg
| pass_running allDocuments pre document rest :
    mains (pool cfg)
    = [mkTask (GetContext (fsPath (doc_uri document)) (modelCachePath st))
         (loop_kont st document rest)] ->
    pass_of (trace cfg)
    = Invoked DocumentsAll allDocuments
      :: pre ++ [Started (GetContext (fsPath (doc_uri document))
                            (modelCachePath st))] ->
    loop_ctx st allDocuments pre (document :: rest) ->
    batch_fulfilled_in (trace cfg) = true ->
    pass_state st changes cfg
| pass_over allDocuments tr o :
    mains (pool cfg) = [] ->
    pass_of (trace cfg) = Invoked DocumentsAll allDocuments :: tr ->
    loop_run st allDocuments tr o ->
    batch_fulfilled_in (trace cfg) = true ->
    pass_state st changes cfg.

(** What every turn preserves, as to the progress of the pass. *)
Record pass_invariant (st : ServerState) (changes : list FileEvent)
  (cfg : Config) : Prop := mkPassInvariant {
  pi_children : children_ok (pool cfg);
  pi_state : pass_state st changes cfg
}.

End Readings.

End ServerReadings.

(* ===================================================================== *)
(** ** The life-cycle handlers of the server *)
(* ===================================================================== *)

Module Lifecycle.
Import JsString Server.

Section Handlers.
Context {X : Collaborators}.

(** [capabilities.workspace] *)
Record WorkspaceClientCapabilities : Type := mkWorkspaceCapabilities {
  configuration : option bool
}.

Record ClientCapabilities : Type := mkClientCapabilities {
  workspace : option WorkspaceClientCapabilities
}.

(** [ServerInitializationOptions], the members the server reads. *)
Record ServerInitializationOptions : Type := mkInitializationOptions {
  opt_modelCachePath : option string;
  opt_logLevel : option string
}.

(** [InitializeParams]; a [rootUri] that is [null] is [None]. *)
Record InitializeParams : Type := mkInitializeParams {
  capabilities : ClientCapabilities;
  rootUri : option string;
  initializationOptions : option ServerInitializationOptions
}.

(** The names of the two quick-fix commands, of the user-facing-text
    package. *)
Record CommandNames : Type := mkCommandNames {
  QUICK_FIX_STABLE_ID_ERROR : string;
  QUICK_FIX_STABLE_ID_FILE_ERRORS : string
}.

Inductive TextDocumentSyncKind : Type := SyncNone | SyncFull | SyncIncremental.

(** The capabilities [onInitialize] returns. *)
Record InitializeResult : Type := mkInitializeResult {
  textDocumentSync : TextDocumentSyncKind;
  resolveProvider : bool;
  triggerCharacters : list string;
  hoverProvider : bool;
  codeActionProvider : bool;
  executeCommands : list string
}.

(** What the life-cycle handlers do to their collaborators, in order. *)
Inductive Effect : Type :=
| SetLogLevel (level : option string)
| InitSwa (params : InitializeParams)
(** [await initI18n()] *)
| InitI18n
| InitializeManifestData (workspaceFolderAbsPath : string)
| InitializeUI5YamlData (workspaceFolderAbsPath : string)
(** [connection.client.register(DidChangeConfigurationNotification.type,
    {section})] *)
| ClientRegister (section : string)
(** [await connection.workspace.getConfiguration({section})] *)
| GetConfigurationSection (section : string)
| SetConfigurationSettings (settings : Settings)
| ClearSettings
| SetGlobalSettings (settings : Settings)
| ClearDocumentSettings (uri : string)
| SendDiagnostics (uri : string) (diagnostics : list Diagnostic).

(** How a handler ends. *)
Inductive Ending (A : Type) : Type :=
| Ends (a : A)
(** an awaited promise was rejected, or an exception was thrown *)
| Fails.
Arguments Ends {A} a.
Arguments Fails {A}.

(** The truthiness of an optional string. *)
Definition truthy (s : option string) : bool :=
  match s with
  | Some s => negb (String.eqb s "")
  | None => false
  end.

(** The module-level variables before [onInitialize] has run. *)
Definition initial_state : ServerState := mkServerState false false None false.

Variable names : CommandNames.

(** *** [connection.onInitialize]

    [i18n] tells whether [initI18n()] is fulfilled.  The result is the
    state of the module-level variables and the value returned. *)
Definition onInitialize (st : ServerState) (params : InitializeParams)
  (i18n : bool) : list Effect * Ending (ServerState * InitializeResult) :=
  let logLevel :=
    match initializationOptions params with
    | Some options => opt_logLevel options
    | None => None
    end in
  let before :=
    ((if truthy logLevel then [SetLogLevel logLevel] else [])
     ++ [InitSwa params; InitI18n])%list in
  if negb i18n then (before, Fails)
  else
    let capabilities := capabilities params in
    let workspaceFolderUri := rootUri params in
    let started :=
      match workspaceFolderUri with
      | Some workspaceFolderUri =>
          let workspaceFolderAbsPath := fsPath workspaceFolderUri in
          [ InitializeManifestData workspaceFolderAbsPath;
            InitializeUI5YamlData workspaceFolderAbsPath ]
      | None => []
      end in
    let manifest' :=
      match workspaceFolderUri with
      | Some _ => true
      | None => manifestStateInitialized st
      end in
    let ui5yaml' :=
      match workspaceFolderUri with
      | Some _ => true
      | None => ui5yamlStateInitialized st
      end in
    let hasConfigurationCapability' :=
      match workspace capabilities with
      | Some workspace =>
          match configuration workspace with
          | Some b => b
          | None => false
          end
      | None => false
      end in
    let modelCachePath' :=
      match initializationOptions params with
      | Some options => opt_modelCachePath options
      | None => None
      end in
    ((before ++ started)%list,
     Ends (mkServerState manifest' ui5yaml' modelCachePath'
             hasConfigurationCapability',
           mkInitializeResult SyncFull true
             [ String (ascii_of_nat 34) ""; "'"; ":"; "<"; "/" ]
             true true
             [ QUICK_FIX_STABLE_ID_ERROR names;
               QUICK_FIX_STABLE_ID_FILE_ERRORS names ])).

(** *** [connection.onInitialized]

    [result] is what [getConfiguration] resolves to, [None] when it is
    rejected. *)
Definition onInitialized (st : ServerState) (result : option Settings)
  : list Effect * Ending unit :=
  if hasConfigurationCapability st then
    let asked := [ ClientRegister "UI5LanguageAssistant";
                   GetConfigurationSection "UI5LanguageAssistant" ] in
    match result with
    | Some result => ((asked ++ [SetConfigurationSettings result])%list, Ends tt)
    | None => (asked, Fails)
    end
  else ([], Ends tt).

(** *** [connection.onDidChangeConfiguration]

    [settings] is [change.settings], [None] when it is [null] or
    [undefined]; inside, the member [UI5LanguageAssistant], [None] when
    it is [undefined].  [logging_level] reads [logging?.level]. *)
Variable logging_level : Settings -> option string.

Definition onDidChangeConfiguration (st : ServerState)
  (settings : option (option Settings)) : list Effect * Ending unit :=
  match settings with
  | None =>
      (** [change.settings.UI5LanguageAssistant] throws *)
      if hasConfigurationCapability st then ([ClearSettings], Fails)
      else ([], Fails)
  | Some section =>
      let first :=
        if hasConfigurationCapability st then [ClearSettings]
        else
          match section with
          | Some ui5LangAssistSettings => [SetGlobalSettings ui5LangAssistSettings]
          | None => []
          end in
      let second :=
        match section with
        | Some ui5LangAssistSettings =>
            [SetConfigurationSettings ui5LangAssistSettings]
        | None => []
        end in
      let level :=
        match section with
        | Some ui5LangAssistSettings => logging_level ui5LangAssistSettings
        | None => None
        end in
      ((first ++ second ++ [SetLogLevel level])%list, Ends tt)
  end.

(** *** [documents.onDidClose] *)
Definition onDidClose (uri : string) : list Effect :=
  ((if isXMLView uri then [SendDiagnostics uri []] else [])
   ++ [ClearDocumentSettings uri])%list.

(** *** [connection.onCompletionResolve] *)
Definition onCompletionResolve (item : CompletionItem) : CompletionItem := item.

(** *** Readings *)

(** The documents whose diagnostics a close published, with the number
    of diagnostics. *)
Definition closed_diagnostics (es : list Effect) : list (string * nat) :=
  flat_map (fun e => match e with
                     | SendDiagnostics uri diagnostics =>
                         [(uri, List.length diagnostics)]
                     | _ => []
                     end) es.

Definition is_set_log_level (e : Effect) : bool :=
  match e with SetLogLevel _ => true | _ => false end.

Definition is_clear_settings (e : Effect) : bool :=
  match e with ClearSettings => true | _ => false end.

Definition is_set_global_settings (e : Effect) : bool :=
  match e with SetGlobalSettings _ => true | _ => false end.

Definition is_set_configuration_settings (e : Effect) : bool :=
  match e with SetConfigurationSettings _ => true | _ => false end.

End Handlers.

Arguments Ends {A} a.
Arguments Fails {A}.

End Lifecycle.

(* ===================================================================== *)
(** ** More of the concrete setting *)
(* ===================================================================== *)

Module SampleMore.
Import JsString Server Lifecycle Sample.


Definition command_names : CommandNames :=
  mkCommandNames "ui5_lang_assistant.quick_fix.stable_id_error"
                 "ui5_lang_assistant.quick_fix.stable_id_file_errors".

(** A client that opens no folder and has no workspace capability. *)
Definition params_no_folder : InitializeParams :=
  mkInitializeParams (mkClientCapabilities None) None
    (Some (mkInitializationOptions (Some "/tmp/ui5-cache") (Some "debug"))).

(** A client that opens a folder and answers configuration requests. *)
Definition params_folder : InitializeParams :=
  mkInitializeParams
    (mkClientCapabilities (Some (mkWorkspaceCapabilities (Some true))))
    (Some "file:///home/user/app")
    None.

(** No document is open. *)
Definition env_closed : Env (X := collaborators) := {|
  settle := settle env_ok;
  answer := fun h c =>
    match c return SResp c with
    | DocumentsGet _ => None
    | DocumentsAll => []
    | c' => answers h c'
    end
|}.

End SampleMore.

(* ===================================================================== *)
(** ** Properties of the string operations *)
(* ===================================================================== *)

Module JsStringFacts.
Import JsString.
Local Open Scope string_scope.

Lemma length_app (s t : string) :
  String.length (s ++ t) = String.length s + String.length t.
Proof. induction s as [|c s IH]; simpl; [reflexivity | now rewrite IH]. Qed.

Lemma app_empty_r (s : string) : s ++ "" = s.
Proof. induction s as [|c s IH]; simpl; [reflexivity | now rewrite IH]. Qed.

Lemma app_assoc (s t u : string) : (s ++ t) ++ u = s ++ (t ++ u).
Proof. induction s as [|c s IH]; simpl; [reflexivity | now rewrite IH]. Qed.

Lemma substring_whole (s : string) : String.substring 0 (String.length s) s = s.
Proof. induction s as [|c s IH]; simpl; [reflexivity | now rewrite IH]. Qed.

(** Taking the first [length p] code units of [p ++ t] gives [p]. *)
Lemma substring_prefix (p t : string) :
  String.substring 0 (String.length p) (p ++ t) = p.
Proof.
  induction p as [|c p IH]; simpl.
  - now destruct t.
  - now rewrite IH.
Qed.

(** Skipping them gives [t]. *)
Lemma substring_suffix (p t : string) :
  String.substring (String.length p) (String.length t) (p ++ t) = t.
Proof.
  induction p as [|c p IH]; simpl.
  - apply substring_whole.
  - exact IH.
Qed.

(** A string is its first [n] code units followed by the rest. *)
Lemma substring_split (s : string) : forall n,
  n <= String.length s ->
  s = String.substring 0 n s ++ String.substring n (String.length s - n) s.
Proof.
  induction s as [|c s IH]; intros n Hn; simpl in *.
  - now destruct n.
  - destruct n as [|n]; simpl.
    + now rewrite substring_whole.
    + rewrite <- IH by lia. reflexivity.
Qed.

Lemma js_length_app (s t : string) :
  js_length (s ++ t) = (js_length s + js_length t)%Z.
Proof. unfold js_length. rewrite length_app. lia. Qed.

Lemma js_length_nonneg (s : string) : (0 <= js_length s)%Z.
Proof. unfold js_length. lia. Qed.

(** Within bounds, [substring] is the slice from [a] to [b]. *)
Lemma js_substring_in_range (s : string) (a b : Z) :
  (0 <= a <= b)%Z -> (b <= js_length s)%Z ->
  js_substring s a b = String.substring (Z.to_nat a) (Z.to_nat (b - a)) s.
Proof.
  intros Ha Hb. unfold js_substring, clamp.
  replace (Z.min (Z.max a 0) (js_length s)) with a by lia.
  replace (Z.min (Z.max b 0) (js_length s)) with b by lia.
  replace (Z.min a b) with a by lia.
  replace (Z.max a b) with b by lia.
  reflexivity.
Qed.

(** [endsWith] decides "is a suffix". *)
Lemma endsWith_true_iff (s t : string) :
  endsWith s t = true <-> exists p, s = p ++ t.
Proof.
  unfold endsWith. split.
  - destruct (Z.ltb_spec (js_length s - js_length t) 0) as [|Hge];
      [discriminate|].
    intros H. apply String.eqb_eq in H.
    pose proof (js_length_nonneg t) as Ht.
    rewrite js_substring_in_range in H by lia.
    exists (String.substring 0 (String.length s - String.length t) s).
    unfold js_length in *.
    replace (Z.to_nat (Z.of_nat (String.length s) - Z.of_nat (String.length t)))
      with (String.length s - String.length t) in H by lia.
    replace (Z.to_nat (Z.of_nat (String.length s)
               - (Z.of_nat (String.length s) - Z.of_nat (String.length t))))
      with (String.length s - (String.length s - String.length t)) in H by lia.
    etransitivity;
      [apply (substring_split s (String.length s - String.length t)); lia|].
    f_equal. exact H.
  - intros [p ->].
    rewrite js_length_app.
    pose proof (js_length_nonneg p) as Hp.
    pose proof (js_length_nonneg t) as Ht.
    destruct (Z.ltb_spec (js_length p + js_length t - js_length t) 0) as [|_];
      [lia|].
    rewrite js_substring_in_range by (rewrite ?js_length_app; lia).
    unfold js_length.
    replace (Z.to_nat (Z.of_nat (String.length p) + Z.of_nat (String.length t)
                       - Z.of_nat (String.length t)))
      with (String.length p) by lia.
    replace (Z.to_nat (Z.of_nat (String.length p) + Z.of_nat (String.length t)
               - (Z.of_nat (String.length p) + Z.of_nat (String.length t)
                  - Z.of_nat (String.length t))))
      with (String.length t) by lia.
    rewrite substring_suffix. apply String.eqb_refl.
Qed.

Lemma endsWith_false_iff (s t : string) :
  endsWith s t = false <-> forall p, s <> p ++ t.
Proof.
  split.
  - intros H p Hp.
    assert (endsWith s t = true) by (apply endsWith_true_iff; eauto).
    congruence.
  - intros H. destruct (endsWith s t) eqn:E; [|reflexivity].
    apply endsWith_true_iff in E as [p Hp]. now elim (H p).
Qed.

End JsStringFacts.

(* ===================================================================== *)
(** ** Properties of objects used as maps *)
(* ===================================================================== *)

Module JsObjectFacts.
Import JsObject.

Section Facts.
Context {T : Type}.
Implicit Types (l : list (string * T)) (o : obj T) (k : string) (v : T).

Lemma lookup_own_In k l v : lookup_own k l = Some v -> In (k, v) l.
Proof.
  induction l as [|[k' v'] l IH]; simpl; [discriminate|].
  destruct (String.eqb_spec k k') as [->|Hne].
  - intros [= ->]. now left.
  - intros H. right. auto.
Qed.

Lemma lookup_own_None k l : lookup_own k l = None <-> ~ In k (map fst l).
Proof.
  induction l as [|[k' v'] l IH]; simpl.
  - tauto.
  - destruct (String.eqb_spec k k') as [->|Hne].
    + split; [discriminate | intros H; elim H; now left].
    + rewrite IH. split; intros H; [intros [E|I]; [congruence|tauto] | tauto].
Qed.

Lemma lookup_own_NoDup k l v :
  NoDup (map fst l) -> In (k, v) l -> lookup_own k l = Some v.
Proof.
  induction l as [|[k' v'] l IH]; simpl; [tauto|].
  intros Hnd [E|I].
  - injection E as -> ->. now rewrite String.eqb_refl.
  - inversion Hnd as [|? ? Hnotin Hnd']; subst.
    destruct (String.eqb_spec k k') as [->|Hne].
    + elim Hnotin. change k' with (fst (k', v)). now apply in_map.
    + auto.
Qed.

Lemma hasOwnProperty_true_iff o k :
  hasOwnProperty o k = true <-> In k (map fst (own o)).
Proof.
  unfold hasOwnProperty.
  destruct (lookup_own k (own o)) eqn:E.
  - split; [intros _ | reflexivity].
    apply lookup_own_In in E. change k with (fst (k, t)). now apply in_map.
  - split; [discriminate|]. intros H. now apply lookup_own_None in E.
Qed.

(** An own property is read as its stored value, whatever the
    prototype. *)
Lemma get_own o k v : lookup_own k (own o) = Some v -> get o k = VData v.
Proof. unfold get. now intros ->. Qed.

(** Without a prototype, a key that is not an own property reads as
    [undefined]. *)
Lemma get_null_proto o k :
  proto o = NullProto -> lookup_own k (own o) = None -> get o k = VUndefined.
Proof. unfold get. now intros -> ->. Qed.

(** *** Enumeration *)

Lemma insert_sorted_perm (e : string * T) l :
  Permutation (insert_sorted e l) (e :: l).
Proof.
  induction l as [|e' l IH]; simpl; [reflexivity|].
  destruct (index_of e <=? index_of e')%N; [reflexivity|].
  rewrite IH. apply perm_swap.
Qed.

Lemma sort_indices_perm l : Permutation (sort_indices l) l.
Proof.
  induction l as [|e l IH]; simpl; [reflexivity|].
  rewrite insert_sorted_perm. now constructor.
Qed.

Lemma filter_split_perm (f : string * T -> bool) l :
  Permutation (filter f l ++ filter (fun e => negb (f e)) l) l.
Proof.
  induction l as [|e l IH]; simpl; [reflexivity|].
  destruct (f e); simpl.
  - now constructor.
  - rewrite <- Permutation_middle. now constructor.
Qed.

Lemma ordered_own_perm o : Permutation (ordered_own o) (own o).
Proof.
  unfold ordered_own.
  rewrite sort_indices_perm. apply filter_split_perm.
Qed.

(** [for ... in] binds every own key, and each once when the own keys
    are distinct. *)
Lemma forIn_keys_perm o : Permutation (forIn_keys o) (map fst (own o)).
Proof. unfold forIn_keys. apply Permutation_map, ordered_own_perm. Qed.

Lemma forIn_keys_NoDup o : wf o -> NoDup (forIn_keys o).
Proof.
  intros H. eapply Permutation_NoDup; [|exact H].
  symmetry. apply forIn_keys_perm.
Qed.

(** *** Assignment *)

Lemma replace_own_keys k v l : map fst (replace_own k v l) = map fst l.
Proof.
  induction l as [|[k' v'] l IH]; simpl; [reflexivity|].
  destruct (String.eqb k k'); simpl; [reflexivity | now rewrite IH].
Qed.

Lemma lookup_replace_own key k v l :
  lookup_own k l <> None ->
  lookup_own key (replace_own k v l)
  = if String.eqb key k then Some v else lookup_own key l.
Proof.
  induction l as [|[k' v'] l IH]; simpl; [congruence|].
  destruct (String.eqb_spec k k') as [->|Hne]; simpl.
  - intros _. now destruct (String.eqb key k').
  - intros H. destruct (String.eqb_spec key k') as [->|Hne'].
    + destruct (String.eqb_spec k' k); [congruence | reflexivity].
    + auto.
Qed.

Lemma lookup_own_app key l l' :
  lookup_own key (l ++ l')
  = match lookup_own key l with Some v => Some v | None => lookup_own key l' end.
Proof.
  induction l as [|[k' v'] l IH]; simpl; [reflexivity|].
  now destruct (String.eqb key k').
Qed.

Lemma set_proto_null o k v : proto o = NullProto -> proto (set o k v) = NullProto.
Proof.
  intros H. unfold set.
  destruct (lookup_own k (own o)); simpl; [exact H|].
  now rewrite H.
Qed.

(** After [o[k] = v] on an object without prototype, [k] is bound to
    [v] and the other keys are as before. *)
Lemma lookup_set_null o key k v :
  proto o = NullProto ->
  lookup_own key (own (set o k v))
  = if String.eqb key k then Some v else lookup_own key (own o).
Proof.
  intros H. unfold set.
  destruct (lookup_own k (own o)) eqn:E; simpl.
  - apply lookup_replace_own. congruence.
  - rewrite H. simpl. rewrite lookup_own_app. simpl.
    destruct (String.eqb_spec key k) as [->|Hne].
    + now rewrite E.
    + now destruct (lookup_own key (own o)).
Qed.

Lemma set_wf o k v : wf o -> wf (set o k v).
Proof.
  unfold wf, set. intros H.
  destruct (lookup_own k (own o)) eqn:E; simpl.
  - now rewrite replace_own_keys.
  - assert (Hnew : NoDup (map fst (own o ++ [(k, v)]))).
    { rewrite map_app. simpl.
      apply lookup_own_None in E.
      eapply Permutation_NoDup; [apply Permutation_cons_append|].
      now constructor. }
    destruct (proto o); [exact Hnew|].
    destruct (String.eqb k "__proto__"); [exact H | exact Hnew].
Qed.

End Facts.

End JsObjectFacts.

(* ===================================================================== *)
(** ** Properties of lodash's [has] *)
(* ===================================================================== *)

Module LodashFacts.
Import JsObject Lodash.

Section Facts.
Context {T : Type} {P : Paths T}.
Implicit Types (o : obj T) (key : string).

(** A key of the object is taken as one key, and found. *)
Lemma has_own o key v : lookup_own key (own o) = Some v -> has o key = true.
Proof.
  intros E. unfold has, castPath, isKey, has_property, hasOwnProperty.
  rewrite E, orb_true_r. simpl. now rewrite E.
Qed.

Lemma has_false_unbound o key : has o key = false -> lookup_own key (own o) = None.
Proof.
  intros H. destruct (lookup_own key (own o)) as [v|] eqn:E; [|reflexivity].
  now rewrite (has_own _ _ _ E) in H.
Qed.

(** No path starts in an object without own property. *)
Lemma has_empty key (proto : Proto) : has (mkObj (@nil (string * T)) proto) key = false.
Proof.
  unfold has. now destruct (castPath key (mkObj [] proto)) as [|k rest].
Qed.

(** When [has] holds of a string that is no key of the object, the
    string was read as a path, and the object reads as undefined at
    it. *)
Lemma has_unbound_reads_undefined o key :
  lookup_own key (own o) = None -> has o key = true -> get o key = VUndefined.
Proof.
  intros E H. unfold get. rewrite E.
  destruct (proto o) eqn:Ep; [reflexivity|].
  destruct (mem_string key object_prototype_keys) eqn:Em; [|reflexivity].
  unfold has, castPath, isKey, has_property in H.
  rewrite Ep, Em, !orb_true_r in H. simpl in H. now rewrite E in H.
Qed.

End Facts.

End LodashFacts.

(* ===================================================================== *)
(** ** Properties of the semantic-model utilities *)
(* ===================================================================== *)

Module UtilsSpec.
Import JsString JsObject Lodash Utils JsStringFacts JsObjectFacts LodashFacts.
Local Open Scope string_scope.

(** *** [getParentFqn] *)

Example getParentFqn_abc : getParentFqn "a.b.c" "c" = Some "a.b".
Proof. reflexivity. Qed.

Example getParentFqn_empty : getParentFqn "" "c" = None.
Proof. reflexivity. Qed.

Example getParentFqn_no_dot : getParentFqn "abc" "c" = None.
Proof. reflexivity. Qed.

(** C1.  When [fqn] is [parent ++ "." ++ name] (it is then not empty),
    [getParentFqn fqn name] is [parent], the FQN without its trailing
    ["." ++ name]; on every other pair of strings, the empty FQN
    included, it is none. *)
Theorem getParentFqn_spec (fqn name : string) :
  (forall parent, fqn = parent ++ "." ++ name ->
     fqn <> "" /\ getParentFqn fqn name = Some parent)
  /\ ((fqn = "" \/ forall parent, fqn <> parent ++ "." ++ name) ->
      getParentFqn fqn name = None).
Proof.
  split.
  - intros parent ->. split.
    + destruct parent; discriminate.
    + unfold getParentFqn.
      assert (Hends : endsWith (parent ++ "." ++ name) ("." ++ name) = true)
        by (apply endsWith_true_iff; eauto).
      rewrite Hends.
      assert (Hne : isEmpty (parent ++ "." ++ name) = false).
      { unfold isEmpty. rewrite js_length_app.
        change ("." ++ name) with (String "." name).
        pose proof (js_length_nonneg parent).
        unfold js_length at 2. simpl String.length. apply Z.eqb_neq. lia. }
      rewrite Hne. cbn [negb andb]. f_equal.
      pose proof (js_length_nonneg parent) as Hp.
      pose proof (js_length_nonneg name) as Hn.
      assert (Hlen : js_length (parent ++ "." ++ name)
                     = (js_length parent + (js_length name + 1))%Z).
      { rewrite js_length_app. change ("." ++ name) with (String "." name).
        unfold js_length. simpl String.length. lia. }
      rewrite js_substring_in_range by lia.
      rewrite Hlen.
      replace (Z.to_nat 0) with 0 by reflexivity.
      replace (Z.to_nat (js_length parent + (js_length name + 1)
                         - (js_length name + 1) - 0))
        with (String.length parent) by (unfold js_length; lia).
      apply substring_prefix.
  - intros [-> | Hno]; [reflexivity|].
    unfold getParentFqn.
    apply endsWith_false_iff in Hno. rewrite Hno.
    now rewrite andb_false_r.
Qed.

(** *** [findValueInMaps] *)

Section FindValueInMaps.
Context {Node : Type} {P : Paths Node}.
Implicit Types (maps : list (obj Node)) (key : string).

Lemma findValueInMaps_skip key (before rest : list (obj Node)) :
  (forall m', In m' before -> has m' key = false) ->
  findValueInMaps key (before ++ rest)%list = findValueInMaps key rest.
Proof.
  induction before as [|m before IH]; simpl; intros H; [reflexivity|].
  rewrite (H m) by now left. apply IH. intros m' Hm'. apply H. now right.
Qed.

(** The result is undefined or a stored value, never an inherited
    member. *)
Lemma findValueInMaps_result key maps :
  findValueInMaps key maps = VUndefined
  \/ exists v, findValueInMaps key maps = VData v.
Proof.
  induction maps as [|m maps IH]; simpl; [now left|].
  destruct (has m key) eqn:Hhas; [|exact IH].
  destruct (lookup_own key (own m)) as [v|] eqn:E.
  - right. exists v. now apply get_own.
  - left. now apply has_unbound_reads_undefined.
Qed.

(** A value that is returned is the one bound to the key in the
    earliest map that has the key as an own entry. *)
Lemma findValueInMaps_sound key maps v :
  findValueInMaps key maps = VData v ->
  exists before m after,
    maps = (before ++ m :: after)%list
    /\ lookup_own key (own m) = Some v
    /\ forall m', In m' before -> lookup_own key (own m') = None.
Proof.
  induction maps as [|m maps IH]; simpl; [discriminate|].
  destruct (has m key) eqn:Hhas.
  - destruct (lookup_own key (own m)) as [v'|] eqn:E.
    + rewrite (get_own _ _ _ E). intros [= ->].
      exists [], m, maps. repeat split; [assumption | intros m' []].
    + rewrite (has_unbound_reads_undefined _ _ E Hhas). discriminate.
  - intros H. destruct (IH H) as [before [m0 [after [-> [E Hbefore]]]]].
    exists (m :: before), m0, after. repeat split; [assumption|].
    intros m' [<- | Hm']; [now apply has_false_unbound | auto].
Qed.

Lemma findValueInMaps_none key maps :
  (forall m, In m maps -> lookup_own key (own m) = None) ->
  findValueInMaps key maps = VUndefined.
Proof.
  intros Hnone.
  destruct (findValueInMaps_result key maps) as [E | [v E]]; [exact E|].
  destruct (findValueInMaps_sound _ _ _ E) as [before [m [after [-> [Ev _]]]]].
  rewrite Hnone in Ev by (apply in_or_app; right; now left). discriminate.
Qed.

(** What holds of [findValueInMaps] on every key and every sequence of
    maps: it returns nothing but the value bound to the key in the
    earliest map that has the key as an own entry, and nothing when no
    map has the key.  It finds that value provided [has] is false of
    the maps before: of a map that has not the key, [has] is true only
    when the key, read as a path, leads through one of its entries into
    the value stored there. *)
Theorem findValueInMaps_earliest_own_entry key maps :
  (forall v, findValueInMaps key maps = VData v ->
     exists before m after,
       maps = (before ++ m :: after)%list
       /\ lookup_own key (own m) = Some v
       /\ forall m', In m' before -> lookup_own key (own m') = None)
  /\ (findValueInMaps key maps = VUndefined
      \/ exists v, findValueInMaps key maps = VData v)
  /\ ((forall m, In m maps -> lookup_own key (own m) = None) ->
      findValueInMaps key maps = VUndefined)
  /\ (forall before m after v,
        maps = (before ++ m :: after)%list ->
        (forall m', In m' before -> has m' key = false) ->
        lookup_own key (own m) = Some v ->
        findValueInMaps key maps = VData v)
  /\ (forall model : UI5SemanticModel Node,
        maps = typeMaps model ->
        (forall m, In m maps -> lookup_own key (own m) = None ->
                   has m key = false) ->
        findByFqn model key = findInCollections key maps).
Proof.
  split; [|split; [|split; [|split]]].
  - apply findValueInMaps_sound.
  - apply findValueInMaps_result.
  - apply findValueInMaps_none.
  - intros before m after v -> Hbefore E.
    rewrite findValueInMaps_skip by exact Hbefore.
    simpl. now rewrite (has_own _ _ _ E), (get_own _ _ _ E).
  - intros model -> Hplain.
    unfold findByFqn, findInCollections, typeMaps in *. simpl.
    repeat match goal with
    | |- context [lookup_own key (own ?m)] =>
        let E := fresh "E" in
        destruct (lookup_own key (own m)) eqn:E;
        [ rewrite (has_own _ _ _ E), (get_own _ _ _ E); reflexivity
        | rewrite (Hplain m) by (simpl; tauto) ]
    end.
    reflexivity.
Qed.

End FindValueInMaps.

(** *** [newMap] *)

Section NewMap.
Context {T : Type}.
Implicit Types (entries : list (string * T)) (o : obj T) (key : string).

Lemma fill_proto_null entries : forall o,
  proto o = NullProto -> proto (assign_all o entries) = NullProto.
Proof.
  induction entries as [|[k v] entries IH]; simpl; intros o H; [exact H|].
  apply IH. now apply set_proto_null.
Qed.

Lemma fill_lookup_other key entries : forall o,
  proto o = NullProto -> ~ In key (map fst entries) ->
  lookup_own key (own (assign_all o entries)) = lookup_own key (own o).
Proof.
  induction entries as [|[k v] entries IH]; simpl; intros o H Hnot;
    [reflexivity|].
  change (assign_all o ((k, v) :: entries)) with (assign_all (set o k v) entries).
  rewrite IH.
  - rewrite lookup_set_null by exact H.
    destruct (String.eqb_spec key k) as [->|_]; [|reflexivity].
    elim Hnot. now left.
  - now apply set_proto_null.
  - tauto.
Qed.

Lemma fill_lookup_inserted key entries : forall o,
  proto o = NullProto -> In key (map fst entries) ->
  exists v, In (key, v) entries
            /\ lookup_own key (own (assign_all o entries)) = Some v.
Proof.
  induction entries as [|[k v] entries IH]; simpl; intros o H Hin; [tauto|].
  destruct (in_dec string_dec key (map fst entries)) as [Hlater|Hnot].
  - destruct (IH (set o k v) (set_proto_null o k v H) Hlater) as [v' [Hv' E]].
    exists v'. split; [now right | exact E].
  - destruct Hin as [<-|Hin]; [|tauto].
    exists v. split; [now left|].
    change (assign_all o ((k, v) :: entries)) with (assign_all (set o k v) entries).
    rewrite fill_lookup_other.
    + rewrite lookup_set_null by exact H. now rewrite String.eqb_refl.
    + now apply set_proto_null.
    + exact Hnot.
Qed.

(** An object literal, by contrast, reads the members of
    [Object.prototype]. *)
Example object_literal_inherits :
  get (mkObj (@nil (string * T)) ObjectPrototype) "toString"
  = VBuiltin "toString"
  /\ get (@newMap T) "toString" = VUndefined.
Proof. split; reflexivity. Qed.

(** C4.  In a map created by [newMap] and filled by assignments, a key
    that was not assigned, the inherited names ["constructor"] and
    ["toString"] of ordinary objects included, is no entry: it reads as
    undefined, [findValueInMaps] finds nothing, and the enumeration does
    not visit it.  Once assigned, the key is found and visited. *)
Theorem newMap_no_inherited_keys {P : Paths T} key entries :
  (~ In key (map fst entries) ->
     get (populate entries) key = VUndefined
     /\ findValueInMaps key [populate entries] = VUndefined
     /\ ~ In key (forIn_keys (populate entries)))
  /\ (In key (map fst entries) ->
      exists v, In (key, v) entries
                /\ findValueInMaps key [populate entries] = VData v
                /\ In key (forIn_keys (populate entries)))
  /\ (get (@newMap T) "constructor" = VUndefined
      /\ get (@newMap T) "toString" = VUndefined
      /\ findValueInMaps "constructor" [@newMap T] = VUndefined
      /\ findValueInMaps "toString" [@newMap T] = VUndefined
      /\ forIn_keys (@newMap T) = []).
Proof.
  assert (Hproto : proto (populate entries) = NullProto)
    by (apply fill_proto_null; reflexivity).
  split; [|split].
  - intros Hnot.
    assert (E : lookup_own key (own (populate entries)) = None)
      by (unfold populate; now rewrite fill_lookup_other).
    repeat split.
    + now apply get_null_proto.
    + apply findValueInMaps_none. intros m [<- | []]. exact E.
    + intros Hin.
      apply (Permutation_in _ (forIn_keys_perm (populate entries))) in Hin.
      now apply lookup_own_None in E.
  - intros Hin.
    destruct (fill_lookup_inserted key entries newMap eq_refl Hin)
      as [v [Hv E]].
    fold (populate entries) in E.
    exists v. repeat split.
    + exact Hv.
    + simpl. now rewrite (has_own _ _ _ E), (get_own _ _ _ E).
    + apply (Permutation_in _ (Permutation_sym
                                 (forIn_keys_perm (populate entries)))).
      apply lookup_own_In in E.
      change key with (fst (key, v)). now apply in_map.
  - repeat split; try reflexivity; simpl; unfold newMap;
      now rewrite has_empty.
Qed.

End NewMap.

(** *** [forEachSymbol] *)

Section ForEachSymbolSpec.
Context {Node St : Type}.
Variable iteratee : St -> jsval Node -> string -> St * IterResult.
Implicit Types (m : obj Node) (st : St) (log es : list (jsval Node * string)).

Local Abbreviation visit := (visit_until_stop iteratee).
Local Abbreviation entry m := (fun key : string => (get m key, key)).

(** The inner loop is the single loop on the entries of one
    collection. *)
Lemma forIn_loop_visit m keys : forall st,
  forIn_loop iteratee m keys st
  = (fst (fst (visit (map (entry m) keys) st)),
     snd (visit (map (entry m) keys) st)).
Proof.
  induction keys as [|key keys IH]; intros st; simpl; [reflexivity|].
  destruct (iteratee st (get m key) key) as [st' r].
  destruct (is_false r); [reflexivity|].
  rewrite IH.
  now destruct (visit (map (entry m) keys) st') as [[st'' vis] stopped].
Qed.

Lemma forIn_loop_recording m keys : forall st log,
  forIn_loop (recording iteratee) m keys (st, log)
  = ((fst (fst (visit (map (entry m) keys) st)),
      (log ++ snd (fst (visit (map (entry m) keys) st)))%list),
     snd (visit (map (entry m) keys) st)).
Proof.
  induction keys as [|key keys IH]; intros st log; simpl.
  - now rewrite app_nil_r.
  - unfold recording at 1. simpl.
    destruct (iteratee st (get m key) key) as [st' r].
    destruct (is_false r); [reflexivity|].
    rewrite IH.
    destruct (visit (map (entry m) keys) st') as [[st'' vis] stopped]. simpl.
    now rewrite <- List.app_assoc.
Qed.

(** The single loop on a concatenation: the second part is run only if
    the first was not stopped. *)
Lemma visit_app es1 es2 : forall st,
  visit (es1 ++ es2)%list st
  = let '(st1, log1, stopped1) := visit es1 st in
    if stopped1 then (st1, log1, true)
    else let '(st2, log2, stopped2) := visit es2 st1 in
         (st2, (log1 ++ log2)%list, stopped2).
Proof.
  induction es1 as [|e es1 IH]; intros st; simpl.
  - now destruct (visit es2 st) as [[st2 log2] stopped2].
  - destruct (iteratee st (fst e) (snd e)) as [st' r].
    destruct (is_false r); [reflexivity|].
    rewrite IH.
    destruct (visit es1 st') as [[st1 log1] [|]]; [reflexivity|].
    now destruct (visit es2 st1) as [[st2 log2] stopped2].
Qed.

(** The nested loops with the labelled [break] are the single loop on
    the traversal order. *)
Lemma main_loop_visit maps : forall st,
  main_loop iteratee maps st = fst (fst (visit (flat_map entries_of maps) st)).
Proof.
  induction maps as [|m maps IH]; intros st; simpl; [reflexivity|].
  rewrite forIn_loop_visit, visit_app.
  change (map (entry m) (forIn_keys m)) with (entries_of m).
  destruct (visit (entries_of m) st) as [[st1 log1] [|]];
    simpl; [reflexivity|].
  rewrite IH.
  now destruct (visit (flat_map entries_of maps) st1) as [[st2 log2] stopped2].
Qed.

Lemma main_loop_recording maps : forall st log,
  main_loop (recording iteratee) maps (st, log)
  = (fst (fst (visit (flat_map entries_of maps) st)),
     (log ++ snd (fst (visit (flat_map entries_of maps) st)))%list).
Proof.
  induction maps as [|m maps IH]; intros st log; simpl.
  - now rewrite app_nil_r.
  - rewrite forIn_loop_recording, visit_app.
    change (map (entry m) (forIn_keys m)) with (entries_of m).
    destruct (visit (entries_of m) st) as [[st1 log1] [|]];
      simpl; [reflexivity|].
    rewrite IH.
    destruct (visit (flat_map entries_of maps) st1) as [[st2 log2] stopped2].
    simpl. now rewrite List.app_assoc.
Qed.

(** What is visited is an initial part of the order, all of it unless
    the traversal was stopped. *)
Lemma visit_prefix es : forall st,
  exists rest,
    es = (snd (fst (visit es st)) ++ rest)%list
    /\ (snd (visit es st) = false -> rest = []).
Proof.
  induction es as [|e es IH]; intros st; simpl.
  - now exists [].
  - destruct (iteratee st (fst e) (snd e)) as [st' r].
    destruct (is_false r); simpl.
    + exists es. split; [reflexivity | discriminate].
    + destruct (IH st') as [rest [E Hrest]].
      destruct (visit es st') as [[st'' vis] stopped]. simpl in *.
      exists rest. split; [now rewrite <- E | exact Hrest].
Qed.

(** A stopped traversal ends on a call that returned [false]. *)
Lemma visit_stopped es : forall st,
  snd (visit es st) = true ->
  exists pre k s,
    snd (fst (visit es st)) = (pre ++ [k])%list
    /\ is_false (snd (iteratee s (fst k) (snd k))) = true.
Proof.
  induction es as [|e es IH]; intros st; simpl; [discriminate|].
  destruct (iteratee st (fst e) (snd e)) as [st' r] eqn:E.
  destruct (is_false r) eqn:Er; simpl.
  - intros _. exists [], e, st. rewrite E. now split.
  - specialize (IH st').
    destruct (visit es st') as [[st'' vis] stopped]. simpl in *.
    intros H. destruct (IH H) as [pre [k [s [Hvis Hk]]]].
    exists (e :: pre), k, s. split; [now rewrite Hvis | exact Hk].
Qed.

(** The first [false] ends the traversal there, whatever follows. *)
Lemma visit_stops_at pre k post : forall st s,
  visit pre st = (s, pre, false) ->
  is_false (snd (iteratee s (fst k) (snd k))) = true ->
  visit (pre ++ k :: post)%list st
  = (fst (iteratee s (fst k) (snd k)), (pre ++ [k])%list, true).
Proof.
  intros st s Hpre Hk. rewrite visit_app, Hpre. simpl.
  destruct (iteratee s (fst k) (snd k)) as [s' r]. simpl in *.
  now rewrite Hk.
Qed.

(** An iteratee that never returns [false] is called on every entry. *)
Lemma visit_all es :
  (forall s v key, is_false (snd (iteratee s v key)) = false) ->
  forall st, snd (fst (visit es st)) = es /\ snd (visit es st) = false.
Proof.
  intros Hnever. induction es as [|e es IH]; intros st; simpl; [easy|].
  specialize (Hnever st (fst e) (snd e)).
  destruct (iteratee st (fst e) (snd e)) as [st' r]. simpl in Hnever.
  rewrite Hnever. specialize (IH st').
  destruct (visit es st') as [[st'' vis] stopped]. simpl in *.
  destruct IH as [-> ->]. easy.
Qed.

(** One collection hands each of its own entries to the iteratee, once,
    with the stored value. *)
Lemma entries_of_perm m :
  wf m ->
  NoDup (forIn_keys m)
  /\ Permutation (entries_of m)
       (map (fun kv : string * Node => (VData (snd kv), fst kv)) (own m)).
Proof.
  intros Hwf. split; [now apply forIn_keys_NoDup|].
  unfold entries_of, forIn_keys. rewrite map_map.
  rewrite <- (Permutation_map _ (ordered_own_perm m)).
  apply Permutation_refl'. apply map_ext_in. intros [k v] Hin. simpl.
  f_equal. apply get_own. apply lookup_own_NoDup; [exact Hwf|].
  now apply (Permutation_in _ (ordered_own_perm m)).
Qed.

(** The list the code loops over holds the six collections in the order
    of the spec. *)
Lemma typeMaps_traversal (model : UI5SemanticModel Node) :
  flat_map entries_of (typeMaps model) = traversal model.
Proof. unfold typeMaps, traversal. simpl. now rewrite app_nil_r. Qed.

End ForEachSymbolSpec.

Example forEachSymbol_stops_across_collections :
  let model :=
    mkModel (populate [("sap.m.Button", 1); ("sap.m.List", 2)])
            (populate [("sap.m.ListType", 3)])
            (populate [("sap.m", 4)])
            newMap newMap newMap in
  let stop_at_List (st : unit) (v : jsval nat) (key : string) :=
    (st, if String.eqb key "sap.m.List" then RetFalse else RetVoid) in
  snd (forEachSymbol (recording stop_at_List) model (tt, []))
  = [(VData 1, "sap.m.Button"); (VData 2, "sap.m.List")].
Proof. reflexivity. Qed.

Example forEachSymbol_index_keys_first :
  forIn_keys (populate [("b", 1); ("10", 2); ("a", 3); ("9", 4)])
  = ["9"; "10"; "b"; "a"].
Proof. reflexivity. Qed.

(** C2.  [forEachSymbol] hands the entries of the six collections to the
    iteratee in the order classes, enums, namespaces, interfaces,
    typedefs, functions: an iteratee that never returns [false] is
    called on every entry, each entry of each collection once; and when
    it returns [false] on an entry the traversal ends there, no later
    entry of that collection or of a later collection being visited. *)
Theorem forEachSymbol_traversal {Node St : Type}
  (iteratee : St -> jsval Node -> string -> St * IterResult)
  (model : UI5SemanticModel Node) (st : St) :
  exists st' log stopped,
    visit_until_stop iteratee (traversal model) st = (st', log, stopped)
    /\ forEachSymbol (recording iteratee) model (st, []) = (st', log)
    /\ forEachSymbol iteratee model st = st'
    /\ (exists rest, traversal model = (log ++ rest)%list
                     /\ (stopped = false -> rest = []))
    /\ (stopped = true ->
        exists pre k s, log = (pre ++ [k])%list
          /\ is_false (snd (iteratee s (fst k) (snd k))) = true)
    /\ (forall pre k post s,
          traversal model = (pre ++ k :: post)%list ->
          visit_until_stop iteratee pre st = (s, pre, false) ->
          is_false (snd (iteratee s (fst k) (snd k))) = true ->
          log = (pre ++ [k])%list)
    /\ ((forall s v key, is_false (snd (iteratee s v key)) = false) ->
        log = traversal model)
    /\ (forall mapElement,
          In mapElement
            [ classes model; enums model; namespaces model;
              interfaces model; typedefs model; functions model ] ->
          wf mapElement ->
          NoDup (forIn_keys mapElement)
          /\ Permutation (entries_of mapElement)
               (map (fun kv : string * Node => (VData (snd kv), fst kv))
                    (own mapElement))).
Proof.
  destruct (visit_until_stop iteratee (traversal model) st)
    as [[st' log] stopped] eqn:E.
  exists st', log, stopped.
  split; [reflexivity|].
  split.
  { unfold forEachSymbol.
    now rewrite main_loop_recording, typeMaps_traversal, E. }
  split.
  { unfold forEachSymbol.
    now rewrite main_loop_visit, typeMaps_traversal, E. }
  split.
  { destruct (visit_prefix iteratee (traversal model) st) as [rest H].
    rewrite E in H. now exists rest. }
  split.
  { intros ->. pose proof (visit_stopped iteratee (traversal model) st) as H.
    rewrite E in H. now apply H. }
  split.
  { intros pre k post s Htr Hpre Hk.
    pose proof (visit_stops_at iteratee pre k post st s Hpre Hk) as H.
    rewrite <- Htr, E in H. now inversion H. }
  split.
  { intros Hnever.
    pose proof (visit_all iteratee (traversal model) Hnever st) as [H _].
    now rewrite E in H. }
  intros mapElement _. apply entries_of_perm.
Qed.

End UtilsSpec.

(* ===================================================================== *)
(** ** Concrete lookups *)
(* ===================================================================== *)

Module UtilsRuns.
Import JsObject Lodash Utils SampleCatalog UtilsSpec.
Local Open Scope string_scope.
#[local] Existing Instance paths.

Example findValueInMaps_class :
  findValueInMaps "sap.m.Button" (typeMaps model) = VData button_class.
Proof. reflexivity. Qed.

Example findValueInMaps_namespace :
  findValueInMaps "sap" (typeMaps model) = VData sap_namespace.
Proof. reflexivity. Qed.

Example findValueInMaps_unknown :
  findValueInMaps "sap.m.List" (typeMaps model) = VUndefined.
Proof. reflexivity. Qed.

(** C3 fails on the code.  The key ["sap.name"] is an own entry of the
    functions and of no other collection.  It is not a key of the
    namespaces, so lodash's [has] reads it there as the path [sap],
    [name]: the namespaces have the entry [sap] and its symbol has the
    member [name], [has] is true, and [findValueInMaps] returns what
    the namespaces hold at ["sap.name"], which is undefined.  The
    functions are not searched. *)
Theorem findValueInMaps_misses_dotted_key :
  lookup_own "sap.name" (own (classes model)) = None
  /\ lookup_own "sap.name" (own (enums model)) = None
  /\ lookup_own "sap.name" (own (namespaces model)) = None
  /\ lookup_own "sap.name" (own (interfaces model)) = None
  /\ lookup_own "sap.name" (own (typedefs model)) = None
  /\ lookup_own "sap.name" (own (functions model)) = Some name_function
  /\ has (namespaces model) "sap.name" = true
  /\ findValueInMaps "sap.name" (typeMaps model) = VUndefined
  /\ findInCollections "sap.name" (typeMaps model) = None
  /\ findByFqn model "sap.name" = Some name_function.
Proof. repeat split. Qed.

(** The theorem [forEachSymbol_traversal] on the catalog: an iteratee
    that never returns [false] is called on the class, then on the
    namespace, then on the function; one that returns [false] on the
    namespace is not called on the function. *)
Lemma forEachSymbol_traversal_witness :
  forEachSymbol (recording (stop_at "")) model (0, [])
  = (3, [ (VData button_class, "sap.m.Button"); (VData sap_namespace, "sap");
          (VData name_function, "sap.name") ])
  /\ forEachSymbol (recording (stop_at "sap")) model (0, [])
     = (2, [ (VData button_class, "sap.m.Button");
             (VData sap_namespace, "sap") ]).
Proof.
  split.
  - destruct (forEachSymbol_traversal (stop_at "") model 0)
      as (st' & log & stopped & Hv & Hrec & _).
    rewrite Hrec. vm_compute in Hv. injection Hv as <- <- _. reflexivity.
  - destruct (forEachSymbol_traversal (stop_at "sap") model 0)
      as (st' & log & stopped & Hv & Hrec & _).
    rewrite Hrec. vm_compute in Hv. injection Hv as <- <- _. reflexivity.
Defined.

(** The theorem [getParentFqn_spec] at the FQN [a.b.c] of the symbol
    [c]. *)
Lemma getParentFqn_spec_witness :
  "a.b.c" <> "" /\ getParentFqn "a.b.c" "c" = Some "a.b".
Proof. exact (proj1 (getParentFqn_spec "a.b.c" "c") "a.b" eq_refl). Defined.

(** The theorem [newMap_no_inherited_keys] at the key [toString] of a
    map that holds one class. *)
Lemma newMap_no_inherited_keys_witness :
  get (populate [("sap.m.Button", button_class)]) "toString" = VUndefined
  /\ findValueInMaps "toString" [populate [("sap.m.Button", button_class)]]
     = VUndefined
  /\ ~ In "toString" (forIn_keys (populate [("sap.m.Button", button_class)])).
Proof.
  apply (proj1 (UtilsSpec.newMap_no_inherited_keys "toString"
                  [("sap.m.Button", button_class)])).
  simpl. intros [H | []]. discriminate.
Defined.

End UtilsRuns.

(* ===================================================================== *)
(** ** Properties of the request handlers *)
(* ===================================================================== *)

Module ServerSpec.
Import JsString Server ServerReadings JsStringFacts.

(** Case analysis on what the environment answers next. *)
Ltac exec_case :=
  match goal with
  | |- context [match settle ?e ?h ?c with _ => _ end] =>
      destruct (settle e h c) as [?|]; simpl
  | |- context [match answer ?e ?h ?c with _ => _ end] =>
      destruct (answer e h c); simpl
  | |- context [match ?v with inl _ => _ | inr _ => _ end] =>
      destruct v; simpl
  | |- context [if ?b then _ else _] => destruct b; simpl
  end.

Ltac exec_cases := simpl; repeat exec_case.

Section Requests.
Context {X : Collaborators}.
Variable env : Env.
Variable st : ServerState.

(** C8.  A completion or hover request on an open document whose
    [getContext] resolves to a ContextError does exactly this and
    nothing else: it sends the context-error notification with that
    error and returns the empty result, the empty list of completion
    items or no hover.  No other collaborator is called, so nothing is
    computed from a catalog.  The first two parts start from what the
    collaborators answer: the document is open and [getContext], called
    on its path, resolves to the error.  The last two start from the
    run: a run in which some [getContext] resolved to an error is that
    run. *)
Theorem context_error_no_op (h : list Event) (cds : list FileEvent) :
  (forall params document error,
      answer env h (DocumentsGet (textDocument_uri params)) = Some document ->
      settle env
        ((h ++ [Invoked (DocumentsGet (textDocument_uri params)) (Some document)])
         ++ [Started (GetContext (fsPath (textDocument_uri params)) (modelCachePath st))])
        (GetContext (fsPath (textDocument_uri params)) (modelCachePath st))
      = Some (inr error) ->
      exec env (onCompletion st params) h cds
      = ([ Invoked (DocumentsGet (textDocument_uri params)) (Some document);
           Started (GetContext (fsPath (textDocument_uri params)) (modelCachePath st));
           Settled (GetContext (fsPath (textDocument_uri params)) (modelCachePath st)) (Some (inr error));
           Sent (ContextErrorNotification error) ],
         Returned []))
  /\ (forall params document error,
      answer env h (DocumentsGet (textDocument_uri params)) = Some document ->
      settle env
        ((h ++ [Invoked (DocumentsGet (textDocument_uri params)) (Some document)])
         ++ [Started (GetContext (fsPath (textDocument_uri params)) (modelCachePath st))])
        (GetContext (fsPath (textDocument_uri params)) (modelCachePath st))
      = Some (inr error) ->
      exec env (onHover st params) h cds
      = ([ Invoked (DocumentsGet (textDocument_uri params)) (Some document);
           Started (GetContext (fsPath (textDocument_uri params)) (modelCachePath st));
           Settled (GetContext (fsPath (textDocument_uri params)) (modelCachePath st)) (Some (inr error));
           Sent (ContextErrorNotification error) ],
         Returned None))
  /\ (forall params error,
      In error (context_errors_got (fst (exec env (onCompletion st params) h cds))) ->
      exists document,
        exec env (onCompletion st params) h cds
        = ([ Invoked (DocumentsGet (textDocument_uri params)) (Some document);
           Started (GetContext (fsPath (textDocument_uri params)) (modelCachePath st));
           Settled (GetContext (fsPath (textDocument_uri params)) (modelCachePath st)) (Some (inr error));
           Sent (ContextErrorNotification error) ],
           Returned []))
  /\ (forall params error,
      In error (context_errors_got (fst (exec env (onHover st params) h cds))) ->
      exists document,
        exec env (onHover st params) h cds
        = ([ Invoked (DocumentsGet (textDocument_uri params)) (Some document);
           Started (GetContext (fsPath (textDocument_uri params)) (modelCachePath st));
           Settled (GetContext (fsPath (textDocument_uri params)) (modelCachePath st)) (Some (inr error));
           Sent (ContextErrorNotification error) ],
           Returned None)).
Proof.
  split; [|split; [|split]].
  - intros params document error Hdoc Hctx.
    unfold onCompletion. simpl. rewrite Hdoc. simpl. rewrite Hctx.
    reflexivity.
  - intros params document error Hdoc Hctx.
    unfold onHover. simpl. rewrite Hdoc. simpl. rewrite Hctx.
    reflexivity.
  - intros params error.
    unfold onCompletion, publish_ui5Model, ensureDocumentSettingsUpdated.
    exec_cases; try tauto.
    intros [-> | []]. eexists. reflexivity.
  - intros params error.
    unfold onHover, publish_ui5Model.
    exec_cases; try tauto.
    intros [-> | []]. eexists. reflexivity.
Qed.


End Requests.

(** *** [validateOpenDocuments] *)

Section Validation.
Context {X : Collaborators}.
Variable env : Env.
Variable st : ServerState.

Lemma validate_loop_run (allDocuments : list TextDocument) :
  forall h cds,
    loop_run st allDocuments
      (fst (exec env (validate_loop st allDocuments) h cds))
      (snd (exec env (validate_loop st allDocuments) h cds)).
Proof.
  induction allDocuments as [|document rest IH]; intros h cds; simpl.
  - constructor.
  - destruct (settle env _ (GetContext _ _)) as [[context|error]|]; simpl.
    + match goal with
      | |- context [exec env (validate_loop st rest) ?h' cds] =>
          specialize (IH h' cds);
          destruct (exec env (validate_loop st rest) h' cds) as [tr o]
      end.
      simpl in *. now constructor.
    + constructor.
    + constructor.
Qed.

(** The documents validated are the first open documents, in order, and
    the diagnostics published are theirs; all documents are validated
    unless a [getContext] fails. *)
Lemma loop_run_validated allDocuments tr o :
  loop_run st allDocuments tr o ->
  published tr = map doc_uri (diagnosed tr)
  /\ context_errors_sent tr = context_errors_got tr
  /\ exists later,
       allDocuments = (diagnosed tr ++ later)%list
       /\ (o = Returned tt -> context_errors_got tr = [] -> later = []).
Proof.
  induction 1 as [|document rest|document rest error
                  |document rest context diagnostics tr o Hrun IH]; simpl.
  - repeat split. now exists [].
  - repeat split. exists (document :: rest). split; [reflexivity|discriminate].
  - repeat split. exists (document :: rest). split; [reflexivity|discriminate].
  - destruct IH as [Hpub [Hsent [later [Hdocs Hall]]]].
    repeat split.
    + now rewrite Hpub.
    + exact Hsent.
    + exists later. split; [now rewrite Hdocs at 1 | exact Hall].
Qed.

(** A context error ends the run: its notification is the last event
    and the only one of its kind, and the documents from the failing
    one on are neither diagnosed nor published. *)
Lemma loop_run_error allDocuments tr o error :
  loop_run st allDocuments tr o ->
  In error (context_errors_got tr) ->
  o = Returned tt
  /\ context_errors_got tr = [error]
  /\ context_errors_sent tr = [error]
  /\ exists document later pre,
       allDocuments = (diagnosed tr ++ document :: later)%list
       /\ tr = (pre ++
               [ Started (GetContext (fsPath (doc_uri document))
                            (modelCachePath st));
                 Settled (GetContext (fsPath (doc_uri document))
                            (modelCachePath st)) (Some (inr error));
                 Sent (ContextErrorNotification error) ])%list
       /\ diagnosed pre = diagnosed tr
       /\ published tr = map doc_uri (diagnosed tr).
Proof.
  induction 1 as [|document rest|document rest error'
                  |document rest context diagnostics tr o Hrun IH]; simpl.
  - tauto.
  - tauto.
  - intros [-> | []]. repeat split.
    exists document, rest, []. repeat split.
  - intros Hin. destruct (IH Hin) as [Ho [Hgot [Hsent Hshape]]].
    destruct Hshape as [d [later [pre [Hdocs [Htr [Hpre Hpub]]]]]].
    repeat split; try assumption.
    exists d, later,
      (Started (GetContext (fsPath (doc_uri document)) (modelCachePath st))
       :: Settled (GetContext (fsPath (doc_uri document)) (modelCachePath st))
            (Some (inl context))
       :: Invoked (GetXMLViewDiagnostics document context) diagnostics
       :: Sent (PublishDiagnostics (doc_uri document) diagnostics)
       :: pre).
    repeat split.
    + now rewrite Hdocs at 1.
    + simpl. now rewrite <- Htr.
    + simpl. now rewrite Hpre.
    + now rewrite Hpub.
Qed.

(** The pass as a whole: nothing without a supported change, else the
    reading of the open documents followed by the loop. *)
Lemma validateOpenDocuments_run changes h cds :
  match find is_supported_change changes with
  | None => exec env (validateOpenDocuments st changes) h cds = ([], Returned tt)
  | Some _ =>
      exists allDocuments tr,
        exec env (validateOpenDocuments st changes) h cds
        = (Invoked DocumentsAll allDocuments :: tr,
           snd (exec env (validateOpenDocuments st changes) h cds))
        /\ loop_run st allDocuments tr
             (snd (exec env (validateOpenDocuments st changes) h cds))
  end.
Proof.
  unfold validateOpenDocuments.
  destruct (find is_supported_change changes); [|reflexivity].
  simpl.
  pose proof (validate_loop_run (answer env h DocumentsAll)
                (h ++ [Invoked DocumentsAll (answer env h DocumentsAll)]) cds)
    as Hrun.
  destruct (exec env (validate_loop st (answer env h DocumentsAll))
              (h ++ [Invoked DocumentsAll (answer env h DocumentsAll)]) cds)
    as [tr o].
  simpl in *. exists (answer env h DocumentsAll), tr. now split.
Qed.

(** C10.  When, during one pass of [validateOpenDocuments], the
    [getContext] of an open document resolves to a ContextError, the
    pass sends one context-error notification, with that error, and
    stops there: diagnostics were computed and published for the
    documents before that one only, not for it nor for any document
    after it. *)
Theorem context_error_stops_pass changes h cds error :
  In error (context_errors_got
              (fst (exec env (validateOpenDocuments st changes) h cds))) ->
  snd (exec env (validateOpenDocuments st changes) h cds) = Returned tt
  /\ context_errors_sent
       (fst (exec env (validateOpenDocuments st changes) h cds)) = [error]
  /\ exists allDocuments validated document later pre,
       fst (exec env (validateOpenDocuments st changes) h cds)
       = (Invoked DocumentsAll allDocuments :: pre ++
          [ Started (GetContext (fsPath (doc_uri document))
                       (modelCachePath st));
            Settled (GetContext (fsPath (doc_uri document))
                       (modelCachePath st)) (Some (inr error));
            Sent (ContextErrorNotification error) ])%list
       /\ allDocuments = (validated ++ document :: later)%list
       /\ diagnosed pre = validated
       /\ diagnosed (fst (exec env (validateOpenDocuments st changes) h cds))
          = validated
       /\ published (fst (exec env (validateOpenDocuments st changes) h cds))
          = map doc_uri validated.
Proof.
  pose proof (validateOpenDocuments_run changes h cds) as Hrun.
  destruct (find is_supported_change changes).
  - destruct Hrun as [allDocuments [tr [E Hloop]]].
    rewrite E. simpl. intros Hin.
    destruct (loop_run_error _ _ _ _ Hloop Hin)
      as [Ho [_ [Hsent [document [later [pre [Hdocs [Htr [Hpre Hpub]]]]]]]]].
    repeat split; try assumption.
    exists allDocuments, (diagnosed tr), document, later, pre.
    repeat split; try assumption. now rewrite Htr at 1.
  - rewrite Hrun. simpl. tauto.
Qed.

End Validation.

(** *** [onDidChangeWatchedFiles] under every schedule *)

Section WatchedFiles.
Context {X : Collaborators}.
Variable env : Env.
Variable st : ServerState.
Variable changes : list FileEvent.

(** A path that ends in [.cds] ends neither in [manifest.json] nor in
    [ui5.yaml]: the branch that collects it is the one taken. *)
Lemma endsWith_cds_exclusive (u : string) :
  endsWith u ".cds" = true ->
  endsWith u "manifest.json" = false /\ endsWith u "ui5.yaml" = false.
Proof.
  intros H. apply endsWith_true_iff in H as [p ->].
  assert (Hlast : String.get (3 + String.length p) (p ++ ".cds")
                  = Some "s"%char)
    by (now rewrite <- String.append_correct2).
  split; apply endsWith_false_iff; intros q Hq.
  - assert (Hlen : 3 + String.length p = 12 + String.length q).
    { apply (f_equal String.length) in Hq. rewrite !length_app in Hq.
      simpl in Hq. lia. }
    rewrite Hq, Hlen, <- String.append_correct2 in Hlast. discriminate.
  - assert (Hlen : 3 + String.length p = 7 + String.length q).
    { apply (f_equal String.length) in Hq. rewrite !length_app in Hq.
      simpl in Hq. lia. }
    rewrite Hq, Hlen, <- String.append_correct2 in Hlast. discriminate.
Qed.

Lemma cds_batches_app (tr1 tr2 : list Event) :
  cds_batches (tr1 ++ tr2) = (cds_batches tr1 ++ cds_batches tr2)%list.
Proof. apply flat_map_app. Qed.

Lemma is_batch_fulfilled_settled c (v : AResp c) :
  is_batch_fulfilled (Settled c (Some v)) = is_batch_call c.
Proof. now destruct c. Qed.

Lemma cds_batches_settled c (r : option (AResp c)) :
  cds_batches [Settled c r] = [].
Proof. reflexivity. Qed.

Lemma pass_follows_batch_cons (e : Event) (tr : list Event) :
  pass_follows_batch (e :: tr)
  = (if is_batch_fulfilled e then
       match tr with
       | e' :: _ => is_documents_read e'
       | [] => false
       end
     else true)
    && pass_follows_batch tr.
Proof. reflexivity. Qed.

(** Appending to a good trace: what is appended must be good. *)
Lemma pass_follows_batch_app (tr blk : list Event) :
  pass_follows_batch tr = true ->
  pass_follows_batch blk = true ->
  pass_follows_batch (tr ++ blk) = true.
Proof.
  intros Htr Hblk. induction tr as [|e tr IH]; simpl in *; [exact Hblk|].
  apply andb_true_iff in Htr as [He Htr].
  rewrite (IH Htr), andb_true_r.
  destruct (is_batch_fulfilled e); [|reflexivity].
  destruct tr; [discriminate | exact He].
Qed.

Lemma pass_follows_batch_unfulfilled (tr : list Event) :
  forallb (fun e => negb (is_batch_fulfilled e)) tr = true ->
  pass_follows_batch tr = true.
Proof.
  induction tr as [|e tr IH]; simpl; [reflexivity|].
  intros H. apply andb_true_iff in H as [He Htr].
  rewrite (IH Htr), andb_true_r.
  now destruct (is_batch_fulfilled e).
Qed.

(** Running to the next [await] settles nothing. *)
Lemma advance_unfulfilled {A : Type} (p : Proc A) : forall h cds,
  forallb (fun e => negb (is_batch_fulfilled e))
    (fst (fst (advance env p h cds))) = true.
Proof.
  induction p as [a|c k IH|c k IH|m k IH|e k IH|k IH]; intros h cds; simpl;
    try reflexivity.
  - specialize (IH (answer env h c) (h ++ [Invoked c (answer env h c)]) cds).
    now destruct (advance env (k (answer env h c)) _ cds) as [[tr cds'] s'].
  - specialize (IH (h ++ [Sent m]) cds).
    now destruct (advance env k _ cds) as [[tr cds'] s'].
  - apply IH.
  - apply IH.
Qed.

(** A quiet function, run to its next [await]: no batch is started, the
    array is as before, and what remains is quiet. *)
Lemma advance_quiet {A : Type} (p : Proc A) :
  quiet p ->
  forall h cds,
    cds_batches (fst (fst (advance env p h cds))) = []
    /\ snd (fst (advance env p h cds)) = cds
    /\ match snd (advance env p h cds) with
       | Finished _ => True
       | Blocked c k => is_batch_call c = false /\ forall r, quiet (k r)
       end.
Proof.
  induction 1 as [a|c k Hc Hk IH|c k Hk IH|m k Hk IH|k Hk IH];
    intros h cds; simpl.
  - repeat split.
  - repeat split; [now destruct c | assumption | assumption].
  - specialize (IH (answer env h c) (h ++ [Invoked c (answer env h c)]) cds).
    now destruct (advance env (k (answer env h c)) _ cds) as [[tr cds'] s'].
  - specialize (IH (h ++ [Sent m]) cds).
    now destruct (advance env k _ cds) as [[tr cds'] s'].
  - apply IH.
Qed.

Lemma validate_loop_quiet (allDocuments : list TextDocument) :
  quiet (validate_loop st allDocuments).
Proof.
  induction allDocuments as [|document rest IH]; simpl.
  - constructor.
  - constructor; [reflexivity|].
    intros [context|error]; simpl; repeat constructor. exact IH.
Qed.

Lemma validateOpenDocuments_quiet : quiet (validateOpenDocuments st changes).
Proof.
  unfold validateOpenDocuments.
  destruct (find is_supported_change changes); simpl; constructor.
  intros allDocuments. apply validate_loop_quiet.
Qed.

(** With a supported change in the burst, the pass begins by reading
    the open documents. *)
Lemma validateOpenDocuments_begins h cds :
  find is_supported_change changes <> None ->
  exists allDocuments tr,
    fst (fst (advance env (validateOpenDocuments st changes) h cds))
    = Invoked DocumentsAll allDocuments :: tr.
Proof.
  unfold validateOpenDocuments.
  destruct (find is_supported_change changes); [intros _ | congruence].
  simpl.
  destruct (advance env (validate_loop st (answer env h DocumentsAll)) _ cds)
    as [[tr cds'] s'].
  simpl. eauto.
Qed.

Lemma Forall_remove_nth {T : Type} (P : T -> Prop) (l : list T) : forall i,
  Forall P l -> Forall P (remove_nth i l).
Proof.
  induction l as [|x l IH]; intros i H; [destruct i; constructor|].
  inversion H; subst. destruct i; simpl; [assumption|]. constructor; auto.
Qed.

Lemma Forall_replace_nth {T : Type} (P : T -> Prop) (y : T) (l : list T) :
  forall i, P y -> Forall P l -> Forall P (replace_nth i y l).
Proof.
  induction l as [|x l IH]; intros i Hy H; [destruct i; constructor|].
  inversion H; subst. destruct i; simpl; constructor; auto.
Qed.

Lemma Forall_nth_error {T : Type} (P : T -> Prop) (l : list T) i x :
  Forall P l -> nth_error l i = Some x -> P x.
Proof.
  intros H E. apply nth_error_In in E.
  now apply (proj1 (Forall_forall P l) H).
Qed.

Lemma resume_invariant (i : nat) (cfg : Config) :
  invariant st changes cfg -> invariant st changes (resume env i cfg).
Proof.
  intros [Hpool Hbatches Harray Hpass]. unfold resume.
  destruct (nth_error (pool cfg) i) as [[c k]|] eqn:Ei;
    [|now constructor].
  destruct (Forall_nth_error _ _ _ _ Hpool Ei) as [Hquiet Hmain].
  simpl in *.
  destruct (settle env (trace cfg) c) as [v|] eqn:Ev.
  - pose proof (advance_quiet (k v) (Hquiet v)
                  (trace cfg ++ [Settled c (Some v)]) (array cfg))
      as [Hb [Ha Hs]].
    pose proof (advance_unfulfilled (k v)
                  (trace cfg ++ [Settled c (Some v)]) (array cfg)) as Hu.
    pose proof (validateOpenDocuments_begins
                  (trace cfg ++ [Settled c (Some v)]) (array cfg)) as Hbegin.
    destruct (advance env (k v) (trace cfg ++ [Settled c (Some v)])
                (array cfg)) as [[tr cds'] s'] eqn:Eadv.
    simpl in *. constructor; simpl.
    + destruct s' as [a|c' k'].
      * now apply Forall_remove_nth.
      * apply Forall_replace_nth; [|assumption].
        destruct Hs as [Hc' Hk']. split; simpl; [assumption | congruence].
    + now rewrite !cds_batches_app, Hbatches, Hb, cds_batches_settled.
    + congruence.
    + intros Hsup. rewrite <- List.app_assoc.
      apply pass_follows_batch_app; [auto|].
      change ([Settled c (Some v)] ++ tr)%list with (Settled c (Some v) :: tr).
      rewrite pass_follows_batch_cons, is_batch_fulfilled_settled.
      rewrite (pass_follows_batch_unfulfilled _ Hu), andb_true_r.
      destruct (is_batch_call c) eqn:Ec; [|reflexivity].
      rewrite (Hmain eq_refl v) in Eadv.
      destruct (Hbegin Hsup) as [allDocuments [tr' Etr]].
      rewrite Eadv in Etr. simpl in Etr. now rewrite Etr.
  - constructor; simpl.
    + now apply Forall_remove_nth.
    + now rewrite cds_batches_app, Hbatches, cds_batches_settled.
    + assumption.
    + intros Hsup. apply pass_follows_batch_app; [auto|].
      now destruct c.
Qed.

Lemma run_invariant (schedule : list nat) : forall cfg,
  invariant st changes cfg -> invariant st changes (run env schedule cfg).
Proof.
  induction schedule as [|i schedule IH]; intros cfg H; simpl; [exact H|].
  apply IH. now apply resume_invariant.
Qed.

(** The callback of [forEach], run to its [await]: a change to a [.cds]
    file is pushed to the array, any other recognized change starts
    its reaction, and no batch is started. *)
Lemma on_change_advance (change : FileEvent) h cds (tasks : list Task) :
  Forall (task_ok st changes) tasks ->
  cds_batches (fst (fst (advance env (on_change change) h cds))) = []
  /\ forallb (fun e => negb (is_batch_fulfilled e))
       (fst (fst (advance env (on_change change) h cds))) = true
  /\ snd (fst (advance env (on_change change) h cds))
     = (cds ++ cds_changes [change])%list
  /\ Forall (task_ok st changes)
       (park (snd (advance env (on_change change) h cds)) tasks).
Proof.
  intros Htasks. unfold on_change, cds_changes. simpl filter.
  destruct (endsWith (uri change) ".cds") eqn:Ecds.
  - destruct (endsWith_cds_exclusive _ Ecds) as [-> ->]. simpl.
    repeat split. assumption.
  - rewrite app_nil_r.
    destruct (endsWith (uri change) "manifest.json");
      [|destruct (endsWith (uri change) "ui5.yaml");
        [|destruct (endsWith (uri change) ".xml");
          [|destruct (endsWith (uri change) "package.json")]]];
      simpl; repeat split; try assumption.
    all: apply Forall_app; split; [assumption|].
    all: constructor; [|constructor].
    all: split; simpl; [intros r; constructor | discriminate].
Qed.

(** The [forEach] of the handler: all the [.cds] changes of the burst
    are in the array, in order, when it returns. *)
Lemma start_forEach (cs : list FileEvent) (j : Job) : forall cfg,
  Forall (task_ok st changes) (pool cfg) ->
  exists evs tasks,
    start env (forEach cs on_change j) cfg
    = start env j (mkConfig (trace cfg ++ evs)
                     (array cfg ++ cds_changes cs) tasks)
    /\ cds_batches evs = []
    /\ forallb (fun e => negb (is_batch_fulfilled e)) evs = true
    /\ Forall (task_ok st changes) tasks.
Proof.
  induction cs as [|change cs IH]; intros cfg Hpool; simpl.
  - exists [], (pool cfg). rewrite !app_nil_r. destruct cfg. now repeat split.
  - destruct (on_change_advance change (trace cfg) (array cfg) (pool cfg) Hpool)
      as [Hb [Hu [Ha Hp]]].
    destruct (advance env (on_change change) (trace cfg) (array cfg))
      as [[tr cds'] s'].
    simpl in *. subst cds'.
    destruct (IH (mkConfig (trace cfg ++ tr)
                    (array cfg ++ cds_changes [change]) (park s' (pool cfg)))
                Hp) as [evs [tasks [E [Hb' [Hu' Ht]]]]].
    simpl in *. exists (tr ++ evs)%list, tasks.
    rewrite E. repeat split.
    + f_equal. f_equal.
      * now rewrite List.app_assoc.
      * rewrite <- List.app_assoc. f_equal.
        unfold cds_changes. simpl.
        now destruct (endsWith (uri change) ".cds").
    + now rewrite cds_batches_app, Hb, Hb'.
    + now rewrite forallb_app, Hu, Hu'.
    + assumption.
Qed.

(** When the handler gives the hand back for the first time, the batch
    has been started, once, with the [.cds] changes of the burst. *)
Lemma start_invariant :
  invariant st changes (start env (onDidChangeWatchedFiles st changes) initial).
Proof.
  unfold onDidChangeWatchedFiles.
  destruct (start_forEach changes
              (Body (cdsFileEvents <- array_read ;;
                     await (ReactOnCdsFileChange cdsFileEvents) ;;
                     validateOpenDocuments st changes))
              initial (Forall_nil _))
    as [evs [tasks [E [Hb [Hu Ht]]]]].
  rewrite E. simpl. constructor; simpl.
  - apply Forall_app. split; [assumption|].
    constructor; [|constructor]. split; simpl.
    + intros _. apply validateOpenDocuments_quiet.
    + reflexivity.
  - now rewrite cds_batches_app, Hb.
  - reflexivity.
  - intros _. apply pass_follows_batch_unfulfilled.
    now rewrite forallb_app, Hu.
Qed.

End WatchedFiles.

(** *** The pass inside [onDidChangeWatchedFiles] *)

Section WatchedFilesPass.
Context {X : Collaborators}.
Variable env : Env.
Variable st : ServerState.
Variable changes : list FileEvent.

(** The guard of [validateOpenDocuments], change by change, is the
    condition of the spec. *)
Lemma is_supported_change_triggers (change : FileEvent) :
  is_supported_change change = true <-> triggers_pass change.
Proof.
  unfold is_supported_change, supportedDocs, triggers_pass. simpl.
  destruct (isXMLView (uri change));
    destruct (endsWith (uri change) "manifest.json");
    destruct (endsWith (uri change) "ui5.yaml");
    destruct (endsWith (uri change) ".cds");
    destruct (endsWith (uri change) ".xml");
    destruct (endsWith (uri change) "package.json");
    simpl; intuition congruence.
Qed.

Lemma find_supported_triggers (cs : list FileEvent) :
  find is_supported_change cs <> None
  <-> exists change, In change cs /\ triggers_pass change.
Proof.
  induction cs as [|c cs IH]; simpl.
  - split; [congruence | intros [change [[] _]]].
  - destruct (is_supported_change c) eqn:E.
    + split; [intros _ | congruence].
      exists c. split; [now left | now apply is_supported_change_triggers].
    + rewrite IH. split.
      * intros [change [Hin Ht]]. exists change. split; [now right | exact Ht].
      * intros [change [[<- | Hin] Ht]].
        -- apply is_supported_change_triggers in Ht. congruence.
        -- now exists change.
Qed.

Lemma find_unsupported (cs : list FileEvent) :
  (forall change, In change cs -> ~ triggers_pass change) ->
  find is_supported_change cs = None.
Proof.
  intros Hno. destruct (find is_supported_change cs) eqn:E; [|reflexivity].
  assert (H : find is_supported_change cs <> None) by congruence.
  apply find_supported_triggers in H as [change [Hin Ht]].
  now destruct (Hno change Hin).
Qed.

(** *** Lists of tasks *)

Lemma filter_remove_nth_out {T : Type} (P : T -> bool) (l : list T) :
  forall i t,
    nth_error l i = Some t -> P t = false ->
    filter P (remove_nth i l) = filter P l.
Proof.
  induction l as [|x l IH]; intros i t E Ht; [now destruct i|].
  destruct i as [|i]; simpl in *.
  - injection E as ->. now rewrite Ht.
  - now rewrite (IH i t E Ht).
Qed.

Lemma filter_nth_error_in {T : Type} (P : T -> bool) (l : list T) i t :
  nth_error l i = Some t -> P t = true -> In t (filter P l).
Proof.
  intros E Ht. apply filter_In. split; [|exact Ht].
  now apply nth_error_In in E.
Qed.

Lemma filter_remove_nth_in {T : Type} (P : T -> bool) (l : list T) :
  forall i t t',
    nth_error l i = Some t -> P t = true -> filter P l = [t'] ->
    filter P (remove_nth i l) = [].
Proof.
  induction l as [|x l IH]; intros i t t' E Ht Hf; [now destruct i|].
  destruct i as [|i]; simpl in *.
  - injection E as ->. rewrite Ht in Hf. now injection Hf.
  - destruct (P x) eqn:Hx.
    + injection Hf as _ Hf.
      pose proof (filter_nth_error_in P l i t E Ht) as Hin.
      rewrite Hf in Hin. destruct Hin.
    + now rewrite (IH i t t' E Ht Hf).
Qed.

Lemma filter_replace_nth_in {T : Type} (P : T -> bool) (l : list T) :
  forall i t t' y,
    nth_error l i = Some t -> P t = true -> filter P l = [t'] ->
    P y = true ->
    filter P (replace_nth i y l) = [y].
Proof.
  induction l as [|x l IH]; intros i t t' y E Ht Hf Hy; [now destruct i|].
  destruct i as [|i]; simpl in *.
  - injection E as ->. rewrite Ht in Hf. rewrite Hy.
    injection Hf as _ Hf. now rewrite Hf.
  - destruct (P x) eqn:Hx.
    + injection Hf as _ Hf.
      pose proof (filter_nth_error_in P l i t E Ht) as Hin.
      rewrite Hf in Hin. destruct Hin.
    + now rewrite (IH i t t' y E Ht Hf Hy).
Qed.

Lemma filter_single_nth_error {T : Type} (P : T -> bool) (l : list T) i t t' :
  nth_error l i = Some t -> P t = true -> filter P l = [t'] -> t = t'.
Proof.
  intros E Ht Hf. pose proof (filter_nth_error_in P l i t E Ht) as Hin.
  rewrite Hf in Hin. destruct Hin as [H | []]. now symmetry.
Qed.

(** *** Readings of a longer trace *)

Lemma pass_of_app (tr1 tr2 : list Event) :
  pass_of (tr1 ++ tr2) = (pass_of tr1 ++ pass_of tr2)%list.
Proof. apply filter_app. Qed.

Lemma batch_fulfilled_app (tr1 tr2 : list Event) :
  batch_fulfilled_in (tr1 ++ tr2)
  = batch_fulfilled_in tr1 || batch_fulfilled_in tr2.
Proof. apply existsb_app. Qed.

Lemma published_pass_of (tr : list Event) :
  published (pass_of tr) = published tr.
Proof.
  induction tr as [|e tr IH]; [reflexivity|].
  unfold pass_of in *. simpl.
  destruct e as [c|c r|c r|m]; try destruct c; simpl; try exact IH.
  all: now rewrite IH.
Qed.


Lemma child_settled c (r : option (AResp c)) :
  is_reaction_call c = true ->
  is_pass_part (Settled c r) = false /\ is_batch_fulfilled (Settled c r) = false.
Proof. destruct c; try discriminate; now destruct r. Qed.

Lemma pass_of_snoc (tr : list Event) (e : Event) :
  pass_of (tr ++ [e])
  = (pass_of tr ++ (if is_pass_part e then [e] else []))%list.
Proof. unfold pass_of. now rewrite filter_app. Qed.

Lemma batch_fulfilled_snoc (tr : list Event) (e : Event) :
  batch_fulfilled_in (tr ++ [e]) = batch_fulfilled_in tr || is_batch_fulfilled e.
Proof.
  unfold batch_fulfilled_in. rewrite existsb_app. simpl.
  now rewrite orb_false_r.
Qed.

Lemma advance_validate_loop (allDocuments : list TextDocument) h cds :
  advance env (validate_loop st allDocuments) h cds
  = match allDocuments with
    | [] => ([], cds, Finished tt)
    | document :: rest =>
        ([Started (GetContext (fsPath (doc_uri document)) (modelCachePath st))],
         cds,
         Blocked (GetContext (fsPath (doc_uri document)) (modelCachePath st))
           (loop_kont st document rest))
    end.
Proof. destruct allDocuments; reflexivity. Qed.

(** A turn that changes neither the handler's task nor the events of the
    pass leaves the pass where it stood. *)
Lemma pass_state_kept (cfg cfg' : Config) :
  pass_state st changes cfg ->
  mains (pool cfg') = mains (pool cfg) ->
  pass_of (trace cfg') = pass_of (trace cfg) ->
  batch_fulfilled_in (trace cfg') = batch_fulfilled_in (trace cfg) ->
  pass_state st changes cfg'.
Proof.
  intros Hst Hm Hp Hb.
  destruct Hst as [l Hm' Hp' Hb'|Hm' Hp' Hb'
                  |allDocuments pre document rest Hm' Hp' Hctx Hb'
                  |allDocuments tr o Hm' Hp' Hrun Hb'];
    rewrite <- Hm in Hm'; rewrite <- Hp in Hp'; rewrite <- Hb in Hb'.
  - now apply (pass_waiting _ _ _ l).
  - now apply pass_never.
  - now apply (pass_running _ _ _ allDocuments pre document rest).
  - now apply (pass_over _ _ _ allDocuments tr o).
Qed.

Lemma loop_ctx_start (allDocuments : list TextDocument) :
  loop_ctx st allDocuments [] allDocuments.
Proof. intros tail o H. exact H. Qed.

Lemma resume_pass (i : nat) (cfg : Config) :
  find is_supported_change changes <> None ->
  pass_invariant st changes cfg ->
  pass_invariant st changes (resume env i cfg).
Proof.
  intros Hsup [Hch Hst]. unfold resume.
  destruct (nth_error (pool cfg) i) as [t|] eqn:Ei; [|now constructor].
  destruct (is_child t) eqn:Ec.
  - pose proof (Forall_nth_error _ _ _ _ Hch Ei Ec) as Hk.
    assert (Hout : mains (remove_nth i (pool cfg)) = mains (pool cfg)).
    { apply (filter_remove_nth_out _ _ i t Ei). now rewrite Ec. }
    destruct (settle env (trace cfg) (call t)) as [v|].
    + rewrite Hk. cbn [advance].
      destruct (child_settled (call t) (Some v) Ec) as [Hpart Hful].
      constructor; cbn [pool trace].
      * now apply Forall_remove_nth.
      * apply (pass_state_kept cfg); cbn [pool trace]; [assumption|assumption| |].
        -- now rewrite app_nil_r, pass_of_snoc, Hpart, app_nil_r.
        -- now rewrite app_nil_r, batch_fulfilled_snoc, Hful, orb_false_r.
    + destruct (child_settled (call t) None Ec) as [Hpart Hful].
      constructor; cbn [pool trace].
      * now apply Forall_remove_nth.
      * apply (pass_state_kept cfg); cbn [pool trace]; [assumption|assumption| |].
        -- now rewrite pass_of_snoc, Hpart, app_nil_r.
        -- now rewrite batch_fulfilled_snoc, Hful, orb_false_r.
  - assert (Hmain : negb (is_child t) = true) by now rewrite Ec.
    destruct Hst as [l Hm Hp Hb|Hm Hp Hb
                    |allDocuments pre document rest Hm Hp Hctx Hb
                    |allDocuments tr o Hm Hp Hrun Hb].
    + pose proof (filter_single_nth_error _ _ _ _ _ Ei Hmain Hm) as ->.
      simpl.
      destruct (settle env (trace cfg) (ReactOnCdsFileChange l)) as [v|].
      * unfold validateOpenDocuments.
        destruct (find is_supported_change changes); [|congruence].
        simpl. rewrite advance_validate_loop.
        destruct (answer env _ DocumentsAll) as [|document rest].
        -- constructor; cbn [pool trace].
           ++ now apply Forall_remove_nth.
           ++ apply (pass_over _ _ _ [] [] (Returned tt)); cbn [pool trace].
              ** apply (filter_remove_nth_in _ _ i _ _ Ei Hmain Hm).
              ** now rewrite pass_of_app, pass_of_snoc, Hp.
              ** constructor.
              ** rewrite batch_fulfilled_app, batch_fulfilled_snoc.
                 simpl. now rewrite orb_true_r.
        -- constructor; cbn [pool trace].
           ++ apply Forall_replace_nth; [discriminate | assumption].
           ++ apply (pass_running _ _ _ (document :: rest) [] document rest);
                cbn [pool trace].
              ** apply (filter_replace_nth_in _ _ i _ _ _ Ei Hmain Hm).
                 reflexivity.
              ** now rewrite pass_of_app, pass_of_snoc, Hp.
              ** apply loop_ctx_start.
              ** rewrite batch_fulfilled_app, batch_fulfilled_snoc.
                 simpl. now rewrite orb_true_r.
      * constructor; cbn [pool trace].
        -- now apply Forall_remove_nth.
        -- apply pass_never; cbn [pool trace].
           ++ apply (filter_remove_nth_in _ _ i _ _ Ei Hmain Hm).
           ++ now rewrite pass_of_snoc, Hp.
           ++ now rewrite batch_fulfilled_snoc, Hb.
    + pose proof (filter_nth_error_in (fun t => negb (is_child t)) _ _ _
                    Ei Hmain) as Hin.
      unfold mains in Hm. rewrite Hm in Hin. destruct Hin.
    + pose proof (filter_single_nth_error _ _ _ _ _ Ei Hmain Hm) as ->.
      cbn [call kont].
      destruct (settle env (trace cfg)
                  (GetContext (fsPath (doc_uri document)) (modelCachePath st)))
        as [[context|error]|].
      * cbn [loop_kont]. simpl advance. rewrite advance_validate_loop.
        match goal with
        | |- context [Invoked (GetXMLViewDiagnostics document context) ?r] =>
            set (diagnostics := r)
        end.
        destruct rest as [|document' rest'].
        -- constructor; cbn [pool trace].
           ++ now apply Forall_remove_nth.
           ++ eapply (pass_over _ _ _ allDocuments _ (Returned tt));
                cbn [pool trace].
              ** apply (filter_remove_nth_in _ _ i _ _ Ei Hmain Hm).
              ** rewrite pass_of_app, pass_of_snoc, Hp. simpl.
                 rewrite <- !List.app_assoc. reflexivity.
              ** apply Hctx. repeat constructor.
              ** now rewrite batch_fulfilled_app, batch_fulfilled_snoc, Hb.
        -- constructor; cbn [pool trace].
           ++ apply Forall_replace_nth; [discriminate | assumption].
           ++ apply (pass_running _ _ _ allDocuments
                       (pre ++
                        [ Started (GetContext (fsPath (doc_uri document))
                                     (modelCachePath st));
                          Settled (GetContext (fsPath (doc_uri document))
                                     (modelCachePath st))
                            (Some (inl context));
                          Invoked (GetXMLViewDiagnostics document context)
                            diagnostics;
                          Sent (PublishDiagnostics (doc_uri document)
                                  diagnostics) ])
                       document' rest');
                cbn [pool trace].
              ** apply (filter_replace_nth_in _ _ i _ _ _ Ei Hmain Hm).
                 reflexivity.
              ** rewrite pass_of_app, pass_of_snoc, Hp. simpl.
                 rewrite <- !List.app_assoc. reflexivity.
              ** intros tail o Hrun. rewrite <- List.app_assoc.
                 apply Hctx. simpl. now constructor.
              ** now rewrite batch_fulfilled_app, batch_fulfilled_snoc, Hb.
      * cbn [loop_kont]. simpl advance.
        constructor; cbn [pool trace].
        -- now apply Forall_remove_nth.
        -- eapply (pass_over _ _ _ allDocuments _ (Returned tt));
             cbn [pool trace].
           ++ apply (filter_remove_nth_in _ _ i _ _ Ei Hmain Hm).
           ++ rewrite pass_of_app, pass_of_snoc, Hp. simpl.
              rewrite <- !List.app_assoc. reflexivity.
           ++ apply Hctx. constructor.
           ++ now rewrite batch_fulfilled_app, batch_fulfilled_snoc, Hb.
      * constructor; cbn [pool trace].
        -- now apply Forall_remove_nth.
        -- eapply (pass_over _ _ _ allDocuments _ Rejected); cbn [pool trace].
           ++ apply (filter_remove_nth_in _ _ i _ _ Ei Hmain Hm).
           ++ rewrite pass_of_snoc, Hp. simpl.
              rewrite <- !List.app_assoc. reflexivity.
           ++ apply Hctx. constructor.
           ++ now rewrite batch_fulfilled_snoc, Hb.
    + pose proof (filter_nth_error_in (fun t => negb (is_child t)) _ _ _
                    Ei Hmain) as Hin.
      unfold mains in Hm. rewrite Hm in Hin. destruct Hin.
Qed.


Lemma run_pass (schedule : list nat) : forall cfg,
  find is_supported_change changes <> None ->
  pass_invariant st changes cfg ->
  pass_invariant st changes (run env schedule cfg).
Proof.
  induction schedule as [|i schedule IH]; intros cfg Hsup H; simpl;
    [exact H|].
  apply IH; [exact Hsup|]. now apply resume_pass.
Qed.

(** The callback of [forEach], run to its [await]: nothing of the pass
    happens, and the task it leaves is a callback awaiting its
    reaction. *)
Lemma on_change_pass (change : FileEvent) h cds (tasks : list Task) :
  children_ok tasks ->
  pass_of (fst (fst (advance env (on_change change) h cds))) = []
  /\ batch_fulfilled_in (fst (fst (advance env (on_change change) h cds)))
     = false
  /\ children_ok (park (snd (advance env (on_change change) h cds)) tasks)
  /\ mains (park (snd (advance env (on_change change) h cds)) tasks)
     = mains tasks.
Proof.
  intros Htasks. unfold on_change.
  destruct (endsWith (uri change) "manifest.json");
    [|destruct (endsWith (uri change) "ui5.yaml");
      [|destruct (endsWith (uri change) ".cds");
        [|destruct (endsWith (uri change) ".xml");
          [|destruct (endsWith (uri change) "package.json")]]]];
    simpl; repeat split; try assumption.
  all: try (apply Forall_app; split; [assumption|];
            constructor; [|constructor]; intros _ []; reflexivity).
  all: unfold mains; rewrite filter_app; simpl; apply app_nil_r.
Qed.

Lemma start_forEach_pass (cs : list FileEvent) (j : Job) : forall cfg,
  children_ok (pool cfg) ->
  exists evs cds' tasks,
    start env (forEach cs on_change j) cfg
    = start env j (mkConfig (trace cfg ++ evs) cds' tasks)
    /\ pass_of evs = []
    /\ batch_fulfilled_in evs = false
    /\ children_ok tasks
    /\ mains tasks = mains (pool cfg).
Proof.
  induction cs as [|change cs IH]; intros cfg Hpool; simpl.
  - exists [], (array cfg), (pool cfg). rewrite app_nil_r.
    destruct cfg. now repeat split.
  - destruct (on_change_pass change (trace cfg) (array cfg) (pool cfg) Hpool)
      as [Hp [Hb [Hc Hm]]].
    destruct (advance env (on_change change) (trace cfg) (array cfg))
      as [[tr cds'] s'].
    simpl in *.
    destruct (IH (mkConfig (trace cfg ++ tr) cds' (park s' (pool cfg))) Hc)
      as [evs [cds'' [tasks [E [Hp' [Hb' [Hc' Hm']]]]]]].
    simpl in *. exists (tr ++ evs)%list, cds'', tasks.
    rewrite E. repeat split.
    + now rewrite List.app_assoc.
    + now rewrite pass_of_app, Hp, Hp'.
    + now rewrite batch_fulfilled_app, Hb, Hb'.
    + assumption.
    + congruence.
Qed.

(** When the handler gives the hand back for the first time it awaits
    the batched call, and nothing of the pass has happened. *)
Lemma start_pass :
  pass_invariant st changes
    (start env (onDidChangeWatchedFiles st changes) initial).
Proof.
  unfold onDidChangeWatchedFiles.
  destruct (start_forEach_pass changes
              (Body (cdsFileEvents <- array_read ;;
                     await (ReactOnCdsFileChange cdsFileEvents) ;;
                     validateOpenDocuments st changes))
              initial (Forall_nil _))
    as [evs [cds' [tasks [E [Hp [Hb [Hc Hm]]]]]]].
  rewrite E. simpl. constructor; cbn [pool trace].
  - apply Forall_app. split; [assumption|].
    constructor; [|constructor]. discriminate.
  - apply (pass_waiting _ _ _ cds'); cbn [pool trace].
    + unfold mains in *. rewrite filter_app, Hm. reflexivity.
    + now rewrite pass_of_snoc, Hp.
    + now rewrite batch_fulfilled_snoc, Hb.
Qed.

(** In a burst for which the pass runs, under every schedule: what the
    trace holds of the pass. *)
Lemma pass_of_run (schedule : list nat) :
  find is_supported_change changes <> None ->
  (batch_fulfilled_in
     (trace (run_job env schedule (onDidChangeWatchedFiles st changes)))
   = false ->
   pass_of (trace (run_job env schedule (onDidChangeWatchedFiles st changes)))
   = [])
  /\ (batch_fulfilled_in
        (trace (run_job env schedule (onDidChangeWatchedFiles st changes)))
      = true ->
      exists allDocuments tr,
        pass_of
          (trace (run_job env schedule (onDidChangeWatchedFiles st changes)))
        = Invoked DocumentsAll allDocuments :: tr
        /\ (exists tail o, loop_run st allDocuments (tr ++ tail) o)
        /\ ((forall t,
               In t (pool (run_job env schedule
                             (onDidChangeWatchedFiles st changes))) ->
               is_reaction_call (call t) = true) ->
            exists o, loop_run st allDocuments tr o)).
Proof.
  intros Hsup.
  destruct (run_pass schedule _ Hsup start_pass) as [_ Hst].
  unfold run_job.
  destruct Hst as [l Hm Hp Hb|Hm Hp Hb
                  |allDocuments pre document rest Hm Hp Hctx Hb
                  |allDocuments tr o Hm Hp Hrun Hb].
  - split; [intros _; exact Hp | congruence].
  - split; [intros _; exact Hp | congruence].
  - split; [congruence | intros _].
    eexists allDocuments, _. split; [exact Hp|]. split.
    + eexists [_], Rejected. rewrite <- List.app_assoc. apply Hctx.
      apply loop_rejected.
    + intros Hall.
      assert (Hin : In (mkTask (GetContext (fsPath (doc_uri document))
                                  (modelCachePath st))
                          (loop_kont st document rest))
                      (mains (pool (run env schedule
                                      (start env
                                         (onDidChangeWatchedFiles st changes)
                                         initial)))))
        by (rewrite Hm; now left).
      apply filter_In in Hin as [Hin _]. apply Hall in Hin. discriminate.
  - split; [congruence | intros _].
    exists allDocuments, tr. split; [exact Hp|]. split.
    + exists [], o. now rewrite app_nil_r.
    + intros _. now exists o.
Qed.

End WatchedFilesPass.

Section WatchedFilesClaims.
Context {X : Collaborators}.

(** C7.  In every run of the watched-files handler, whatever the
    environment and the order in which the pending calls settle,
    [reactOnCdsFileChange] is called once, with the changes of the
    burst whose path ends in [.cds], in the order received: once also
    when there is none, and never once per file.  The array it is given
    is not changed afterwards. *)
Theorem cds_changes_batched_once (env : Env) (st : ServerState)
  (changes : list FileEvent) (schedule : list nat) :
  cds_batches
    (trace (run_job env schedule (onDidChangeWatchedFiles st changes)))
  = [cds_changes changes]
  /\ array (run_job env schedule (onDidChangeWatchedFiles st changes))
     = cds_changes changes.
Proof.
  destruct (run_invariant env st changes schedule _
              (start_invariant env st changes))
    as [_ Hbatches Harray _].
  now split.
Qed.

(** C6, as the code has it.  The pass runs for a burst with a change
    whose path is not an XML view and ends in [manifest.json],
    [ui5.yaml], [.cds], [.xml] or [package.json].  Without such a
    change, [validateOpenDocuments] does nothing.  With one, it reads
    the open documents and, for each in order until the first whose
    [getContext] does not resolve to a context, computes and publishes
    its diagnostics.  And in the handler, under every order in which
    the pending calls settle: the fulfilment of the batched call is
    directly followed by the reading of the open documents; before it
    nothing of the pass happens; after it the events of the pass,
    whatever the reactions to the single paths do in between, are the
    beginning of such a run over the open documents, and the whole of
    it once the handler has ended, so that the diagnostics published
    are those of the documents validated. *)
Theorem revalidation_after_supported_change (env : Env) (st : ServerState)
  (changes : list FileEvent) :
  ((forall change, In change changes -> ~ triggers_pass change) ->
   forall h cds,
     exec env (validateOpenDocuments st changes) h cds = ([], Returned tt))
  /\ ((exists change, In change changes /\ triggers_pass change) ->
      forall h cds,
      exists allDocuments tr,
        fst (exec env (validateOpenDocuments st changes) h cds)
        = Invoked DocumentsAll allDocuments :: tr
        /\ loop_run st allDocuments tr
             (snd (exec env (validateOpenDocuments st changes) h cds))
        /\ published tr = map doc_uri (diagnosed tr)
        /\ exists later,
             allDocuments = (diagnosed tr ++ later)%list
             /\ (snd (exec env (validateOpenDocuments st changes) h cds)
                 = Returned tt ->
                 context_errors_got tr = [] -> later = []))
  /\ ((exists change, In change changes /\ triggers_pass change) ->
      forall schedule,
        pass_follows_batch (trace (run_job env schedule (onDidChangeWatchedFiles st changes))) = true
        /\ (batch_fulfilled_in (trace (run_job env schedule (onDidChangeWatchedFiles st changes))) = false ->
            pass_of (trace (run_job env schedule (onDidChangeWatchedFiles st changes))) = [])
        /\ (batch_fulfilled_in (trace (run_job env schedule (onDidChangeWatchedFiles st changes))) = true ->
            exists allDocuments tr,
              pass_of (trace (run_job env schedule (onDidChangeWatchedFiles st changes)))
              = Invoked DocumentsAll allDocuments :: tr
              /\ published (trace (run_job env schedule (onDidChangeWatchedFiles st changes))) = published tr
              /\ (exists tail o, loop_run st allDocuments (tr ++ tail) o)
              /\ ((forall t,
                     In t (pool (run_job env schedule (onDidChangeWatchedFiles st changes))) ->
                     is_reaction_call (call t) = true) ->
                  exists o,
                    loop_run st allDocuments tr o
                    /\ published tr = map doc_uri (diagnosed tr)
                    /\ exists later,
                         allDocuments = (diagnosed tr ++ later)%list
                         /\ (o = Returned tt ->
                             context_errors_got tr = [] -> later = [])))).
Proof.
  split; [|split].
  - intros Hnone h cds.
    pose proof (validateOpenDocuments_run env st changes h cds) as H.
    now rewrite (find_unsupported changes Hnone) in H.
  - intros Hsome h cds. apply find_supported_triggers in Hsome.
    pose proof (validateOpenDocuments_run env st changes h cds) as H.
    destruct (find is_supported_change changes); [|congruence].
    destruct H as [allDocuments [tr [E Hloop]]].
    exists allDocuments, tr.
    destruct (loop_run_validated st _ _ _ Hloop) as [Hpub [_ Hlater]].
    rewrite E at 1. now repeat split.
  - intros Hsome schedule. apply find_supported_triggers in Hsome.
    split.
    { now apply (run_invariant env st changes schedule _
                   (start_invariant env st changes)). }
    destruct (pass_of_run env st changes schedule Hsome) as [Hbefore Hafter].
    split; [exact Hbefore|].
    intros Hful.
    destruct (Hafter Hful) as [allDocuments [tr [Hp [Hpre Hall]]]].
    exists allDocuments, tr. split; [exact Hp|]. split.
    { rewrite <- published_pass_of, Hp. reflexivity. }
    split; [exact Hpre|].
    intros Hended. destruct (Hall Hended) as [o Hrun].
    exists o. split; [exact Hrun|].
    destruct (loop_run_validated st _ _ _ Hrun) as [Hpub [_ Hlater]].
    now split.
Qed.

End WatchedFilesClaims.

End ServerSpec.

(* ===================================================================== *)
(** ** Concrete runs *)
(* ===================================================================== *)

Module ServerRuns.
Import JsString Server ServerReadings ServerSpec Sample.
#[local] Existing Instance collaborators.

Example completion_on_context_error :
  exec env_error (onCompletion state a_request) [] []
  = ([ Invoked (DocumentsGet main_view) (Some main_view);
       Started (GetContext main_view None);
       Settled (GetContext main_view None)
         (Some (inr "no model"));
       Sent (ContextErrorNotification "no model") ],
     Returned []).
Proof. reflexivity. Qed.

Example completion_on_context :
  exec env_ok (onCompletion state a_request) [] []
  = ([ Invoked (DocumentsGet main_view) (Some main_view);
       Started (GetContext main_view None);
       Settled (GetContext main_view None)
         (Some (inl "1.71.49"));
       Started (GetCDNBaseUrl "SAPUI5" "1.71.49");
       Settled (GetCDNBaseUrl "SAPUI5" "1.71.49") (Some a_url);
       Sent (UI5ModelNotification a_url "SAPUI5" "1.71.49" false false);
       Started (GetSettingsForDocument main_view);
       Settled (GetSettingsForDocument main_view) (Some tt);
       Invoked (GetCompletionItems "1.71.49" a_request
                  main_view tt)
         ["sap.m.Button"] ],
     Returned ["sap.m.Button"]).
Proof. reflexivity. Qed.

(** The theorem [context_error_no_op] at a completion request and at a
    hover request on an open view for which [getContext] resolves to an
    error. *)
Lemma context_error_no_op_witness :
  exec env_error (onCompletion state a_request) [] []
  = ([ Invoked (DocumentsGet main_view) (Some main_view);
       Started (GetContext main_view None);
       Settled (GetContext main_view None) (Some (inr "no model"));
       Sent (ContextErrorNotification "no model") ],
     Returned [])
  /\ exec env_error (onHover state a_request) [] []
     = ([ Invoked (DocumentsGet main_view) (Some main_view);
          Started (GetContext main_view None);
          Settled (GetContext main_view None) (Some (inr "no model"));
          Sent (ContextErrorNotification "no model") ],
        Returned None).
Proof.
  split.
  - apply (proj1 (context_error_no_op env_error state [] [])
             a_request main_view "no model"); reflexivity.
  - apply (proj1 (proj2 (context_error_no_op env_error state [] []))
             a_request main_view "no model"); reflexivity.
Defined.


(** The theorem [context_error_stops_pass] at a pass over three open
    documents of which the second has no context. *)
Lemma context_error_stops_pass_witness :
  snd (exec env_mixed (validateOpenDocuments state [manifest_change]) [] [])
  = Returned tt
  /\ context_errors_sent
       (fst (exec env_mixed (validateOpenDocuments state [manifest_change])
               [] []))
     = ["no model"]
  /\ exists allDocuments validated document later pre,
       fst (exec env_mixed (validateOpenDocuments state [manifest_change])
              [] [])
       = (Invoked DocumentsAll allDocuments :: pre ++
          [ Started (GetContext (fsPath (doc_uri document))
                       (modelCachePath state));
            Settled (GetContext (fsPath (doc_uri document))
                       (modelCachePath state)) (Some (inr "no model"));
            Sent (ContextErrorNotification "no model") ])%list
       /\ allDocuments = (validated ++ document :: later)%list
       /\ diagnosed pre = validated
       /\ diagnosed
            (fst (exec env_mixed
                    (validateOpenDocuments state [manifest_change]) [] []))
          = validated
       /\ published
            (fst (exec env_mixed
                    (validateOpenDocuments state [manifest_change]) [] []))
          = map doc_uri validated.
Proof.
  apply (context_error_stops_pass env_mixed state [manifest_change] [] []
           "no model").
  simpl. left. reflexivity.
Defined.

Example pass_stops_at_second_document :
  exec env_mixed (validateOpenDocuments state [manifest_change]) [] []
  = ([ Invoked DocumentsAll [main_view; detail_view; list_view];
       Started (GetContext main_view None);
       Settled (GetContext main_view None) (Some (inl "1.71.49"));
       Invoked (GetXMLViewDiagnostics main_view "1.71.49") ["unknown class"];
       Sent (PublishDiagnostics main_view ["unknown class"]);
       Started (GetContext detail_view None);
       Settled (GetContext detail_view None) (Some (inr "no model"));
       Sent (ContextErrorNotification "no model") ],
     Returned tt).
Proof. reflexivity. Qed.

Example cds_changes_of_a_burst :
  cds_batches
    (trace (run_job env_ok [0; 0; 0]
              (onDidChangeWatchedFiles state
                 [cds_change_1; manifest_change; cds_change_2])))
  = [[cds_change_1; cds_change_2]].
Proof. reflexivity. Qed.

(** C5 fails on the code.  The burst is one change to a
    [manifest.json]; the batched call settles first, as it may.  The
    pass then reads the open documents, gets a context and publishes
    diagnostics while [reactOnManifestChange] is still pending: it
    settles last.  The [await] in the callback of [forEach] suspends the
    callback only; [forEach] does not wait for it. *)
Theorem validation_before_reaction_completes :
  trace (run_job env_ok [1; 1; 0]
           (onDidChangeWatchedFiles state [manifest_change]))
  = [ Started (ReactOnManifestChange "webapp/manifest.json" Changed);
      Started (ReactOnCdsFileChange []);
      Settled (ReactOnCdsFileChange []) (Some tt);
      Invoked DocumentsAll [main_view];
      Started (GetContext main_view None);
      Settled (GetContext main_view None) (Some (inl "1.71.49"));
      Invoked (GetXMLViewDiagnostics main_view "1.71.49") ["unknown class"];
      Sent (PublishDiagnostics main_view ["unknown class"]);
      Settled (ReactOnManifestChange "webapp/manifest.json" Changed)
        (Some tt) ].
Proof. reflexivity. Qed.

(** C6 as stated fails, in four ways.  (1) The burst is one change to an
    XML view: its path ends in [.xml] and [reactOnXmlFileChange] is
    called, yet the handler runs to its end without reading the open
    documents, an open view with a context notwithstanding.  (2) The
    burst is one change to a [.cds] file and the batched
    [reactOnCdsFileChange], the reaction for that path, is rejected: the
    handler ends there, and nothing is read or published.  (3) The burst
    is one change to a [manifest.json] and three views are open;
    [getContext] resolves to an error for the second: the diagnostics of
    the first are published, those of the third are not, though it has
    a context.  (4) The same burst, and [getContext] is rejected for the
    open view: nothing is published. *)
Lemma pass_is_conditional :
  (endsWith (uri view_change) ".xml" = true
   /\ answer env_ok [] DocumentsAll = [main_view]
   /\ run_job env_ok [0; 0] (onDidChangeWatchedFiles state [view_change])
      = mkConfig
          [ Started (ReactOnXmlFileChange main_view Changed);
            Started (ReactOnCdsFileChange []);
            Settled (ReactOnXmlFileChange main_view Changed) (Some tt);
            Settled (ReactOnCdsFileChange []) (Some tt) ]
          [] []
   /\ published
        (trace (run_job env_ok [0; 0]
                  (onDidChangeWatchedFiles state [view_change])))
      = [])
  /\ (endsWith (uri cds_change_1) ".cds" = true
      /\ isXMLView (uri cds_change_1) = false
      /\ answer env_batch_rejected [] DocumentsAll = [main_view]
      /\ run_job env_batch_rejected [0]
           (onDidChangeWatchedFiles state [cds_change_1])
         = mkConfig
             [ Started (ReactOnCdsFileChange [cds_change_1]);
               Settled (ReactOnCdsFileChange [cds_change_1]) None ]
             [cds_change_1] []
      /\ published
           (trace (run_job env_batch_rejected [0]
                     (onDidChangeWatchedFiles state [cds_change_1])))
         = [])
  /\ (endsWith (uri manifest_change) "manifest.json" = true
      /\ isXMLView (uri manifest_change) = false
      /\ settle env_mixed [] (GetContext list_view None) = Some (inl "1.71.49")
      /\ run_job env_mixed [1; 1; 1; 0]
           (onDidChangeWatchedFiles state [manifest_change])
         = mkConfig
             [ Started (ReactOnManifestChange "webapp/manifest.json" Changed);
               Started (ReactOnCdsFileChange []);
               Settled (ReactOnCdsFileChange []) (Some tt);
               Invoked DocumentsAll [main_view; detail_view; list_view];
               Started (GetContext main_view None);
               Settled (GetContext main_view None) (Some (inl "1.71.49"));
               Invoked (GetXMLViewDiagnostics main_view "1.71.49")
                 ["unknown class"];
               Sent (PublishDiagnostics main_view ["unknown class"]);
               Started (GetContext detail_view None);
               Settled (GetContext detail_view None) (Some (inr "no model"));
               Sent (ContextErrorNotification "no model");
               Settled (ReactOnManifestChange "webapp/manifest.json" Changed)
                 (Some tt) ]
             [] []
      /\ published
           (trace (run_job env_mixed [1; 1; 1; 0]
                     (onDidChangeWatchedFiles state [manifest_change])))
         = [main_view])
  /\ (answer env_context_rejected [] DocumentsAll = [main_view]
      /\ run_job env_context_rejected [1; 1; 0]
           (onDidChangeWatchedFiles state [manifest_change])
         = mkConfig
             [ Started (ReactOnManifestChange "webapp/manifest.json" Changed);
               Started (ReactOnCdsFileChange []);
               Settled (ReactOnCdsFileChange []) (Some tt);
               Invoked DocumentsAll [main_view];
               Started (GetContext main_view None);
               Settled (GetContext main_view None) None;
               Settled (ReactOnManifestChange "webapp/manifest.json" Changed)
                 (Some tt) ]
             [] []
      /\ published
           (trace (run_job env_context_rejected [1; 1; 0]
                     (onDidChangeWatchedFiles state [manifest_change])))
         = []).
Proof. repeat split. Qed.

(** The theorem [revalidation_after_supported_change] at a burst with a
    change to a [manifest.json], in the run in which the batched call
    settles first and the reaction to the manifest last: the pass is the
    whole of a run of the loop over the open view, whose diagnostics
    are published. *)
Lemma revalidation_after_supported_change_witness :
  triggers_pass manifest_change
  /\ exists allDocuments tr o,
       pass_of
         (trace (run_job env_ok [1; 1; 0]
                   (onDidChangeWatchedFiles state [manifest_change])))
       = Invoked DocumentsAll allDocuments :: tr
       /\ loop_run state allDocuments tr o
       /\ published tr = map doc_uri (diagnosed tr).
Proof.
  assert (Htriggers : triggers_pass manifest_change)
    by (split; [reflexivity | left; reflexivity]).
  split; [exact Htriggers|].
  destruct (proj2 (proj2 (revalidation_after_supported_change env_ok state
                            [manifest_change]))
              (ex_intro _ manifest_change (conj (or_introl eq_refl) Htriggers))
              [1; 1; 0])
    as (_ & _ & Hafter).
  destruct (Hafter eq_refl) as (allDocuments & tr & Hpass & _ & _ & Hended).
  destruct Hended as (o & Hrun & Hpub & _).
  { intros t Hin. vm_compute in Hin. destruct Hin. }
  exists allDocuments, tr, o. now repeat split.
Defined.

End ServerRuns.

(* ===================================================================== *)
(** ** Further properties of the semantic-model utilities *)
(* ===================================================================== *)

Module UtilsMore.
Import JsString JsObject Lodash Utils UtilsReadings.
Import JsStringFacts JsObjectFacts LodashFacts UtilsSpec.
Local Open Scope string_scope.

Section SingleKeys.
Context {Node : Type} {P : Paths Node}.

(** A string without path syntax is one key: [has] is then the
    own-property test. *)
Lemma has_single_key (o : obj Node) (key : string) :
  reIsPlainProp key = true \/ reIsDeepProp key = false ->
  has o key = hasOwnProperty o key.
Proof.
  intros Hsyntax. unfold has, castPath, isKey.
  assert (E : reIsPlainProp key || negb (reIsDeepProp key) = true)
    by (destruct Hsyntax as [-> | ->]; [reflexivity | apply orb_true_r]).
  rewrite E. simpl. unfold hasOwnProperty.
  now destruct (lookup_own key (own o)).
Qed.

(** X1.  For a key that lodash takes as one key, because it is a plain
    name or has no path syntax, the first match wins without
    exception: [findValueInMaps] returns the value bound to the key in
    the earliest map that has it as an own entry. *)
Theorem findValueInMaps_single_key (key : string) (maps before after : list (obj Node))
  (m : obj Node) (v : Node) :
  reIsPlainProp key = true \/ reIsDeepProp key = false ->
  maps = (before ++ m :: after)%list ->
  (forall m', In m' before -> lookup_own key (own m') = None) ->
  lookup_own key (own m) = Some v ->
  findValueInMaps key maps = VData v.
Proof.
  intros Hsyntax -> Hbefore E.
  rewrite findValueInMaps_skip.
  - simpl. now rewrite (has_own _ _ _ E), (get_own _ _ _ E).
  - intros m' Hm'. rewrite (has_single_key _ _ Hsyntax).
    unfold hasOwnProperty. now rewrite (Hbefore m' Hm').
Qed.

(** X2.  Every entry that [forEachSymbol] hands out for the classes,
    the first collection, is found again by [findValueInMaps] over the
    six collections, under its key and with the value handed out. *)
Theorem visited_class_is_found (model : UI5SemanticModel Node)
  (key : string) (v : jsval Node) :
  In (v, key) (entries_of (classes model)) ->
  findValueInMaps key (typeMaps model) = v
  /\ exists symbol, v = VData symbol.
Proof.
  unfold entries_of. intros Hin.
  apply in_map_iff in Hin as [key' [Heq Hkey]].
  injection Heq as <- ->.
  apply (Permutation_in _ (forIn_keys_perm (classes model))) in Hkey.
  destruct (lookup_own key (own (classes model))) as [symbol|] eqn:E.
  - split; [|exists symbol; now apply get_own].
    unfold typeMaps. simpl. now rewrite (has_own _ _ _ E).
  - now apply lookup_own_None in E.
Qed.

End SingleKeys.

Section Counting.
Context {Node St : Type}.
Variable iteratee : St -> jsval Node -> string -> St * IterResult.

Lemma entries_of_length (m : obj Node) :
  List.length (entries_of m) = List.length (own m).
Proof.
  unfold entries_of. rewrite length_map.
  rewrite (Permutation_length (forIn_keys_perm m)). apply length_map.
Qed.

Lemma traversal_length (model : UI5SemanticModel Node) :
  List.length (traversal model) = symbol_count model.
Proof.
  unfold traversal, symbol_count.
  rewrite !List.length_app, !entries_of_length. lia.
Qed.

(** X3.  [forEachSymbol] calls the iteratee at most as many times as the
    six collections have entries, and exactly that many times when the
    iteratee never returns [false]. *)
Theorem forEachSymbol_call_count (model : UI5SemanticModel Node) (st : St) :
  List.length (snd (forEachSymbol (recording iteratee) model (st, [])))
  <= symbol_count model
  /\ ((forall s v key, is_false (snd (iteratee s v key)) = false) ->
      List.length (snd (forEachSymbol (recording iteratee) model (st, [])))
      = symbol_count model).
Proof.
  unfold forEachSymbol.
  rewrite main_loop_recording, typeMaps_traversal. cbn [snd app].
  rewrite <- traversal_length. split.
  - destruct (visit_prefix iteratee (traversal model) st) as [rest [E _]].
    apply (f_equal (@List.length _)) in E.
    rewrite List.length_app in E. lia.
  - intros Hnever.
    now rewrite (proj1 (visit_all iteratee (traversal model) Hnever st)).
Qed.

End Counting.

End UtilsMore.

(* ===================================================================== *)
(** ** Further properties of the request handlers *)
(* ===================================================================== *)

Module ServerMore.
Import JsString Server ServerReadings JsStringFacts ServerSpec.

Section Requests.
Context {X : Collaborators}.
Variable env : Env.
Variable st : ServerState.

(** X4.  A completion, hover or code-action request for a document the
    document manager does not hold asks for the document and does
    nothing else: no context is built, nothing is sent, and the result
    is the empty one. *)
Theorem request_on_unknown_document (h : list Event) (cds : list FileEvent) :
  (forall params,
      answer env h (DocumentsGet (textDocument_uri params)) = None ->
      exec env (onCompletion st params) h cds
      = ([Invoked (DocumentsGet (textDocument_uri params)) None], Returned [])
      /\ exec env (onHover st params) h cds
         = ([Invoked (DocumentsGet (textDocument_uri params)) None],
            Returned None))
  /\ (forall params,
      answer env h (DocumentsGet (ca_textDocument_uri params)) = None ->
      exec env (onCodeAction st params) h cds
      = ([Invoked (DocumentsGet (ca_textDocument_uri params)) None],
         Returned None)).
Proof.
  split; intros params E; [split|].
  all: unfold onCompletion, onHover, onCodeAction; simpl; now rewrite E.
Qed.


(** X6.  Every call of [getContext] a handler makes is for the file
    path of the document at hand and carries the model cache path of
    the initialization options; a request makes at most one. *)
Theorem getContext_arguments (h : list Event) (cds : list FileEvent) :
  (forall params,
      let call := (fsPath (textDocument_uri params), modelCachePath st) in
      (context_calls (fst (exec env (onCompletion st params) h cds)) = []
       \/ context_calls (fst (exec env (onCompletion st params) h cds)) = [call])
      /\ (context_calls (fst (exec env (onHover st params) h cds)) = []
          \/ context_calls (fst (exec env (onHover st params) h cds)) = [call]))
  /\ (forall documentUri,
      let call := (fsPath documentUri, modelCachePath st) in
      context_calls (fst (exec env (onDidChangeContent st documentUri) h cds)) = []
      \/ context_calls (fst (exec env (onDidChangeContent st documentUri) h cds))
         = [call])
  /\ (forall params,
      let call := (fsPath (ca_textDocument_uri params), modelCachePath st) in
      context_calls (fst (exec env (onCodeAction st params) h cds)) = []
      \/ context_calls (fst (exec env (onCodeAction st params) h cds)) = [call]).
Proof.
  split; [|split]; intros params; [split| |].
  all: unfold onCompletion, onHover, onDidChangeContent, onCodeAction,
         publish_ui5Model, ensureDocumentSettingsUpdated.
  all: exec_cases; tauto.
Qed.

(** The calls of [getContext] of the loop: one for each document it
    reaches, in order, with the same cache path. *)
Lemma loop_run_context_calls allDocuments tr o :
  loop_run st allDocuments tr o ->
  exists reached later,
    allDocuments = (reached ++ later)%list
    /\ context_calls tr
       = map (fun document => (fsPath (doc_uri document), modelCachePath st))
           reached.
Proof.
  induction 1 as [|document rest|document rest error
                  |document rest context diagnostics tr o Hrun IH]; simpl.
  - now exists [], [].
  - now exists [document], rest.
  - now exists [document], rest.
  - destruct IH as [reached [later [-> E]]].
    exists (document :: reached), later. simpl. now rewrite E.
Qed.

(** The loop fetches no CDN URL and sends no ui5Model notification. *)
Lemma loop_run_no_ui5Model allDocuments tr o :
  loop_run st allDocuments tr o -> ui5Model_sent tr = [] /\ cdn_calls tr = [].
Proof. induction 1; simpl; auto. Qed.

(** X7.  The validation pass builds a context for each document it
    reaches, with the model cache path of the initialization options,
    but, unlike the request handlers, fetches no CDN URL and sends no
    ui5Model notification. *)
Theorem pass_sends_no_ui5Model (changes : list FileEvent)
  (h : list Event) (cds : list FileEvent) :
  ui5Model_sent (fst (exec env (validateOpenDocuments st changes) h cds)) = []
  /\ cdn_calls (fst (exec env (validateOpenDocuments st changes) h cds)) = []
  /\ Forall (fun call => snd call = modelCachePath st)
       (context_calls (fst (exec env (validateOpenDocuments st changes) h cds))).
Proof.
  pose proof (validateOpenDocuments_run env st changes h cds) as Hrun.
  destruct (find is_supported_change changes).
  - destruct Hrun as [allDocuments [tr [E Hloop]]]. rewrite E. simpl.
    destruct (loop_run_no_ui5Model _ _ _ Hloop) as [-> ->].
    destruct (loop_run_context_calls _ _ _ Hloop) as [reached [later [_ ->]]].
    repeat split. apply Forall_forall. intros call Hin.
    apply in_map_iff in Hin as [document [<- _]]. reflexivity.
  - rewrite Hrun. simpl. repeat split. constructor.
Qed.

(** X8.  A content change is ignored, without any call, unless both
    initializations have been started and the document is an XML view;
    and it publishes diagnostics for no document but the changed one,
    at most once. *)
Theorem content_change_gate (documentUri : string)
  (h : list Event) (cds : list FileEvent) :
  (manifestStateInitialized st = false
   \/ ui5yamlStateInitialized st = false
   \/ isXMLView documentUri = false ->
   exec env (onDidChangeContent st documentUri) h cds = ([], Returned tt))
  /\ (published (fst (exec env (onDidChangeContent st documentUri) h cds)) = []
      \/ (published (fst (exec env (onDidChangeContent st documentUri) h cds))
          = [documentUri]
          /\ isXMLView documentUri = true
          /\ contexts_got
               (fst (exec env (onDidChangeContent st documentUri) h cds))
             <> [])).
Proof.
  unfold onDidChangeContent, publish_ui5Model. split.
  - intros [-> | [-> | ->]]; simpl; rewrite ?orb_true_r; reflexivity.
  - destruct (manifestStateInitialized st), (ui5yamlStateInitialized st),
      (isXMLView documentUri); simpl; try (left; reflexivity).
    exec_cases; try (left; reflexivity).
    right. repeat split. discriminate.
Qed.

End Requests.

End ServerMore.

(* ===================================================================== *)
(** ** Further properties of the watched-files handler *)
(* ===================================================================== *)

Module WatchedFilesMore.
Import JsString Server ServerReadings JsStringFacts ServerSpec.

Section Schedules.
Context {X : Collaborators}.
Variable env : Env.
Variable st : ServerState.






(** *** The batch comes first *)

Lemma no_pass_before_batch_app (tr blk : list Event) :
  no_pass_before_batch tr = true ->
  no_pass_before_batch blk = true ->
  no_pass_before_batch (tr ++ blk) = true.
Proof.
  intros Htr Hblk. induction tr as [|e tr IH]; simpl in *; [exact Hblk|].
  destruct (is_batch_fulfilled e); [reflexivity|].
  apply andb_true_iff in Htr as [-> Htr]. simpl. auto.
Qed.

Lemma no_pass_before_batch_fulfilled (tr blk : list Event) :
  batch_fulfilled_in tr = true ->
  no_pass_before_batch (tr ++ blk) = no_pass_before_batch tr.
Proof.
  unfold batch_fulfilled_in.
  induction tr as [|e tr IH]; simpl; [discriminate|].
  destruct (is_batch_fulfilled e); [reflexivity|]. simpl.
  intros H. now rewrite IH.
Qed.

Lemma no_pass_before_batch_calm (tr : list Event) :
  forallb calm tr = true -> no_pass_before_batch tr = true.
Proof.
  induction tr as [|e tr IH]; simpl; [reflexivity|].
  unfold calm at 1. intros H.
  apply andb_true_iff in H as [He Htr].
  apply andb_true_iff in He as [Hp Hf].
  apply negb_true_iff in Hf. rewrite Hf, Hp. auto.
Qed.

(** Without a fulfilment of the batch, "no event of the pass before it"
    is "no event of the pass". *)
Lemma no_pass_without_batch (tr : list Event) :
  batch_fulfilled_in tr = false ->
  no_pass_before_batch tr = forallb (fun e => negb (is_pass_event e)) tr.
Proof.
  unfold batch_fulfilled_in.
  induction tr as [|e tr IH]; simpl; [reflexivity|].
  destruct (is_batch_fulfilled e); [discriminate|]. simpl.
  intros H. now rewrite IH.
Qed.

Lemma on_change_calm (change : FileEvent) h cds (tasks : list Task) :
  Forall task_pre tasks ->
  forallb calm (fst (fst (advance env (on_change change) h cds))) = true
  /\ Forall task_pre (park (snd (advance env (on_change change) h cds)) tasks).
Proof.
  intros Htasks. unfold on_change.
  destruct (endsWith (uri change) "manifest.json");
    [|destruct (endsWith (uri change) "ui5.yaml");
      [|destruct (endsWith (uri change) ".cds");
        [|destruct (endsWith (uri change) ".xml");
          [|destruct (endsWith (uri change) "package.json")]]]];
    simpl; split; try reflexivity; try assumption.
  all: apply Forall_app; split; [assumption|].
  all: constructor; [|constructor].
  all: right; simpl; now intros [].
Qed.

Lemma start_forEach_calm (cs : list FileEvent) (j : Job) : forall cfg,
  Forall task_pre (pool cfg) ->
  exists evs cds' tasks,
    start env (forEach cs on_change j) cfg
    = start env j (mkConfig (trace cfg ++ evs) cds' tasks)
    /\ forallb calm evs = true
    /\ Forall task_pre tasks.
Proof.
  induction cs as [|change cs IH]; intros cfg Hpool; simpl.
  - exists [], (array cfg), (pool cfg). rewrite app_nil_r.
    destruct cfg. now repeat split.
  - destruct (on_change_calm change (trace cfg) (array cfg) (pool cfg) Hpool)
      as [Hc Hp].
    destruct (advance env (on_change change) (trace cfg) (array cfg))
      as [[tr cds'] s'].
    simpl in *.
    destruct (IH (mkConfig (trace cfg ++ tr) cds' (park s' (pool cfg))) Hp)
      as [evs [cds'' [tasks [E [Hc' Ht]]]]].
    simpl in *. exists (tr ++ evs)%list, cds'', tasks.
    rewrite E, List.app_assoc, forallb_app, Hc, Hc'. now repeat split.
Qed.

Lemma start_batch_first (changes : list FileEvent) :
  batch_first (start env (onDidChangeWatchedFiles st changes) initial).
Proof.
  unfold onDidChangeWatchedFiles.
  destruct (start_forEach_calm changes
              (Body (cdsFileEvents <- array_read ;;
                     await (ReactOnCdsFileChange cdsFileEvents) ;;
                     validateOpenDocuments st changes))
              initial (Forall_nil _))
    as [evs [cds' [tasks [E [Hc Ht]]]]].
  rewrite E. simpl. constructor; simpl.
  - apply no_pass_before_batch_calm. now rewrite forallb_app, Hc.
  - right. apply Forall_app. split; [assumption|].
    constructor; [|constructor]. now left.
Qed.

Lemma batch_fulfilled_in_app (tr blk : list Event) :
  batch_fulfilled_in (tr ++ blk)
  = batch_fulfilled_in tr || batch_fulfilled_in blk.
Proof. apply existsb_app. Qed.

Lemma no_pass_after_fulfilment c (v : AResp c) (tr : list Event) :
  is_batch_call c = true ->
  no_pass_before_batch (Settled c (Some v) :: tr) = true
  /\ batch_fulfilled_in (Settled c (Some v) :: tr) = true.
Proof. now destruct c. Qed.

Lemma no_pass_settled c (r : option (AResp c)) :
  no_pass_before_batch [Settled c r] = true.
Proof. now destruct c, r. Qed.

Lemma resume_batch_first (i : nat) (cfg : Config) :
  batch_first cfg -> batch_first (resume env i cfg).
Proof.
  intros [Htrace Hpool]. unfold resume.
  destruct (nth_error (pool cfg) i) as [[c k]|] eqn:Ei; [|now constructor].
  simpl.
  destruct (batch_fulfilled_in (trace cfg)) eqn:Hdone.
  - (* the batch is fulfilled already: nothing is asked of what follows *)
    destruct (settle env (trace cfg) c) as [v|].
    + destruct (advance env (k v) (trace cfg ++ [Settled c (Some v)])
                  (array cfg)) as [[tr cds'] s'].
      constructor; simpl.
      * rewrite <- List.app_assoc.
        now rewrite no_pass_before_batch_fulfilled.
      * left. now rewrite <- List.app_assoc, batch_fulfilled_in_app, Hdone.
    + constructor; simpl.
      * now rewrite no_pass_before_batch_fulfilled.
      * left. now rewrite batch_fulfilled_in_app, Hdone.
  - destruct Hpool as [Hpool | Hpool]; [discriminate|].
    pose proof (Forall_nth_error _ _ _ _ Hpool Ei) as Hpre.
    destruct (settle env (trace cfg) c) as [v|] eqn:Ev.
    + destruct (is_batch_call c) eqn:Ec.
      * (* the handler goes on: the fulfilment stands before its events *)
        destruct (advance env (k v) (trace cfg ++ [Settled c (Some v)])
                    (array cfg)) as [[tr cds'] s'].
        constructor; simpl.
        -- rewrite <- List.app_assoc.
           apply no_pass_before_batch_app; [assumption|].
           apply (no_pass_after_fulfilment c v tr Ec).
        -- left. rewrite <- List.app_assoc, batch_fulfilled_in_app.
           change ([Settled c (Some v)] ++ tr)%list
             with (Settled c (Some v) :: tr).
           rewrite (proj2 (no_pass_after_fulfilment c v tr Ec)).
           apply orb_true_r.
      * (* a callback ends *)
        destruct Hpre as [Hbatch | Hret]; [simpl in Hbatch; congruence|].
        simpl in Hret. rewrite (Hret v). simpl. constructor; simpl.
        -- rewrite app_nil_r. apply no_pass_before_batch_app; [assumption|].
           apply no_pass_settled.
        -- right. now apply Forall_remove_nth.
    + constructor; simpl.
      * apply no_pass_before_batch_app; [assumption|].
        apply no_pass_settled.
      * right. now apply Forall_remove_nth.
Qed.

Lemma run_batch_first (schedule : list nat) : forall cfg,
  batch_first cfg -> batch_first (run env schedule cfg).
Proof.
  induction schedule as [|i schedule IH]; intros cfg H; simpl; [exact H|].
  apply IH. now apply resume_batch_first.
Qed.

(** X10.  In every run of the watched-files handler the batched
    [reactOnCdsFileChange] is awaited: before it is fulfilled no
    document is read, no context is asked for and nothing is sent; and
    in a run in which it is not fulfilled, rejected included, none of
    that happens at all. *)
Theorem batch_before_pass (changes : list FileEvent) (schedule : list nat) :
  no_pass_before_batch
    (trace (run_job env schedule (onDidChangeWatchedFiles st changes))) = true
  /\ (batch_fulfilled_in
        (trace (run_job env schedule (onDidChangeWatchedFiles st changes)))
      = false ->
      forallb (fun e => negb (is_pass_event e))
        (trace (run_job env schedule (onDidChangeWatchedFiles st changes)))
      = true).
Proof.
  destruct (run_batch_first schedule _ (start_batch_first changes))
    as [Htrace _].
  split; [exact Htrace|].
  intros Hnot. now rewrite <- no_pass_without_batch.
Qed.

End Schedules.

End WatchedFilesMore.

(* ===================================================================== *)
(** ** Properties of the life-cycle handlers *)
(* ===================================================================== *)

Module LifecycleSpec.
Import JsString Server ServerReadings Lifecycle ServerSpec.

Section Lifecycle.
Context {X : Collaborators}.
Variable names : CommandNames.
Variable env : Env.

(** The diagnostics a content change publishes are for the changed
    document, an XML view. *)
Lemma content_change_publishes_view (st : ServerState) (documentUri uri : string)
  (h : list Event) (cds : list FileEvent) :
  In uri (published (fst (exec env (onDidChangeContent st documentUri) h cds))) ->
  uri = documentUri /\ isXMLView documentUri = true.
Proof.
  unfold onDidChangeContent, publish_ui5Model.
  destruct (manifestStateInitialized st), (ui5yamlStateInitialized st),
    (isXMLView documentUri); simpl; try tauto.
  exec_cases; try tauto.
  intros [<- | []]. now split.
Qed.

(** X11.  Whether content changes are handled at all is decided at
    initialization: in the state [onInitialize] leaves when it starts
    from the initial one, a content change is ignored, without any
    call, exactly when the client gave no root URI or the document is
    not an XML view. *)
Theorem content_change_needs_root_uri (params : InitializeParams)
  (st' : ServerState) (result : InitializeResult) (documentUri : string)
  (h : list Event) (cds : list FileEvent) :
  snd (onInitialize names initial_state params true) = Ends (st', result) ->
  (exec env (onDidChangeContent st' documentUri) h cds = ([], Returned tt)
   <-> rootUri params = None \/ isXMLView documentUri = false).
Proof.
  unfold onInitialize. simpl. intros [= <- _].
  unfold onDidChangeContent. simpl.
  destruct (rootUri params) as [folder|]; simpl.
  - destruct (isXMLView documentUri); simpl.
    + split; [|intros [H | H]; discriminate].
      destruct (settle env _ StateInitialized); simpl; [|discriminate].
      match goal with
      | |- context [exec env ?p ?h' cds] => destruct (exec env p h' cds)
      end.
      discriminate.
    + split; [now right | reflexivity].
  - split; [now left | reflexivity].
Qed.

(** X12.  A client that did not announce the workspace configuration
    capability at initialization is never asked for the configuration
    of a document: a completion request neither looks for cached
    settings of the document nor requests or stores any. *)
Theorem no_capability_no_configuration_request (st : ServerState)
  (params : InitializeParams) (st' : ServerState) (result : InitializeResult)
  (request : TextDocumentPositionParams) (h : list Event) (cds : list FileEvent) :
  snd (onInitialize names st params true) = Ends (st', result) ->
  match workspace (capabilities params) with
  | Some workspace => configuration workspace <> Some true
  | None => True
  end ->
  settings_probed (fst (exec env (onCompletion st' request) h cds)) = []
  /\ configuration_requested (fst (exec env (onCompletion st' request) h cds)) = []
  /\ settings_stored (fst (exec env (onCompletion st' request) h cds)) = [].
Proof.
  unfold onInitialize. simpl. intros [= <- _] Hcap.
  assert (E : forall m y c, hasConfigurationCapability
                (mkServerState m y c
                   match workspace (capabilities params) with
                   | Some workspace =>
                       match configuration workspace with
                       | Some b => b
                       | None => false
                       end
                   | None => false
                   end) = false).
  { intros m y c. simpl.
    destruct (workspace (capabilities params)) as [w|]; [|reflexivity].
    destruct (configuration w) as [[|]|]; congruence. }
  unfold onCompletion, publish_ui5Model, ensureDocumentSettingsUpdated.
  rewrite E. exec_cases; repeat split.
Qed.

(** X13.  Closing a document publishes diagnostics only for an XML
    view and only the empty list, and always drops the settings cached
    for the document; whatever a content change published for a
    document is thus cleared when the document is closed. *)
Theorem close_clears_diagnostics (st : ServerState) (documentUri uri : string)
  (h : list Event) (cds : list FileEvent) :
  (In uri (published (fst (exec env (onDidChangeContent st documentUri) h cds))) ->
   closed_diagnostics (onDidClose uri) = [(uri, 0)])
  /\ closed_diagnostics (onDidClose uri)
     = (if isXMLView uri then [(uri, 0)] else [])
  /\ exists before, onDidClose uri = (before ++ [ClearDocumentSettings uri])%list.
Proof.
  split; [|split].
  - intros Hin.
    destruct (content_change_publishes_view _ _ _ _ _ Hin) as [-> Hview].
    unfold onDidClose. now rewrite Hview.
  - unfold onDidClose. now destruct (isXMLView uri).
  - unfold onDidClose. eauto.
Qed.

(** X14.  A configuration change clears the cached document settings
    exactly for a client with the configuration capability and sets the
    global settings only for a client without it.  When the change
    carries no settings object the handler fails and the log level is
    left as it was; otherwise it ends by setting the log level, and it
    sets the configuration settings exactly when the section of the
    server is present. *)
Theorem configuration_change_effects (logging_level : Settings -> option string)
  (st : ServerState) (settings : option (option Settings)) :
  existsb is_clear_settings
    (fst (onDidChangeConfiguration logging_level st settings))
  = hasConfigurationCapability st
  /\ (existsb is_set_global_settings
        (fst (onDidChangeConfiguration logging_level st settings)) = true ->
      hasConfigurationCapability st = false)
  /\ (snd (onDidChangeConfiguration logging_level st settings) = Fails
      <-> settings = None)
  /\ (settings = None ->
      existsb is_set_log_level
        (fst (onDidChangeConfiguration logging_level st settings)) = false)
  /\ (forall section, settings = Some section ->
      existsb is_set_configuration_settings
        (fst (onDidChangeConfiguration logging_level st settings))
      = match section with Some _ => true | None => false end
      /\ exists before,
           fst (onDidChangeConfiguration logging_level st settings)
           = (before ++
              [SetLogLevel match section with
                           | Some s => logging_level s
                           | None => None
                           end])%list).
Proof.
  unfold onDidChangeConfiguration.
  destruct settings as [[section|]|], (hasConfigurationCapability st); simpl.
  all: repeat split; try discriminate; try congruence.
  all: try match goal with
           | H : Some _ = Some _ |- _ => injection H as <-
           end.
  all: try reflexivity.
  all: first [ eexists [_; _]; reflexivity
             | eexists [_]; reflexivity
             | exists []; reflexivity ].
Qed.

End Lifecycle.

End LifecycleSpec.

(* ===================================================================== *)
(** ** Further concrete runs *)
(* ===================================================================== *)

Module MoreRuns.
Import JsString JsObject Lodash Utils SampleCatalog.
Import Server ServerReadings Lifecycle Sample SampleMore.
Import UtilsMore ServerMore WatchedFilesMore LifecycleSpec.
#[local] Existing Instance paths.
#[local] Existing Instance collaborators.
Local Open Scope string_scope.

(** The theorem [findValueInMaps_single_key] at the plain key [sap],
    an entry of the third collection. *)
Lemma findValueInMaps_single_key_witness :
  findValueInMaps "sap" (typeMaps model) = VData sap_namespace.
Proof.
  apply (findValueInMaps_single_key "sap" (typeMaps model)
           [classes model; enums model]
           [interfaces model; typedefs model; functions model]
           (namespaces model) sap_namespace).
  - left. reflexivity.
  - reflexivity.
  - intros m' [<- | [<- | []]]; reflexivity.
  - reflexivity.
Defined.

(** The theorem [visited_class_is_found] at the class of the sample. *)
Lemma visited_class_is_found_witness :
  findValueInMaps "sap.m.Button" (typeMaps model) = VData button_class
  /\ exists symbol, VData button_class = VData symbol.
Proof.
  apply (visited_class_is_found model "sap.m.Button" (VData button_class)).
  simpl. left. reflexivity.
Defined.

(** The theorem [request_on_unknown_document] at a request made while
    no document is open. *)
Lemma request_on_unknown_document_witness :
  exec env_closed (onCompletion state a_request) [] []
  = ([Invoked (DocumentsGet main_view) None], Returned [])
  /\ exec env_closed (onHover state a_request) [] []
     = ([Invoked (DocumentsGet main_view) None], Returned None).
Proof.
  exact (proj1 (request_on_unknown_document env_closed state [] [])
           a_request eq_refl).
Defined.


Example batch_first_in_a_run :
  no_pass_before_batch
    (trace (run_job env_ok [1; 1; 0]
              (onDidChangeWatchedFiles state [manifest_change])))
  = true.
Proof. reflexivity. Qed.

(** The theorem [content_change_needs_root_uri] at a client without
    folder. *)
Lemma content_change_needs_root_uri_witness :
  exec env_ok
    (onDidChangeContent
       (mkServerState false false (Some "/tmp/ui5-cache") false) main_view)
    [] []
  = ([], Returned tt)
  <-> rootUri params_no_folder = None \/ isXMLView main_view = false.
Proof.
  exact (content_change_needs_root_uri command_names env_ok params_no_folder
           _ _ main_view [] [] eq_refl).
Defined.

Example content_change_with_folder :
  published
    (fst (exec env_ok
            (onDidChangeContent
               (mkServerState true true None true) main_view) [] []))
  = [main_view].
Proof. reflexivity. Qed.

(** The theorem [no_capability_no_configuration_request] at a client
    without workspace capability. *)
Lemma no_capability_no_configuration_request_witness :
  settings_probed
    (fst (exec env_ok
            (onCompletion
               (mkServerState false false (Some "/tmp/ui5-cache") false)
               a_request) [] [])) = []
  /\ configuration_requested
       (fst (exec env_ok
               (onCompletion
                  (mkServerState false false (Some "/tmp/ui5-cache") false)
                  a_request) [] [])) = []
  /\ settings_stored
       (fst (exec env_ok
               (onCompletion
                  (mkServerState false false (Some "/tmp/ui5-cache") false)
                  a_request) [] [])) = [].
Proof.
  exact (no_capability_no_configuration_request command_names env_ok
           initial_state params_no_folder _ _ a_request [] [] eq_refl I).
Defined.

End MoreRuns.
